(** * vectorworks-tag: the release-tag resolver, embedded and verified

    The repository is a GitHub action that reads the existing tags of a
    repository and a small configuration (a year and an update text), and
    computes the next tag of that release line.  The sources hold three
    revisions of the same program:

    - [src/unnamed/part_001]: the revision the specification follows,
      update marker ["up"] (module [Up] below);
    - [src/index.js], second document (lines 227-455): the previous
      revision, service-pack marker ["sp"] (module [Sp]);
    - [src/index.js], first document (lines 1-226): the first revision
      (module [Sp0], only the functions that differ).

    Modelling conventions.

    - A JavaScript number is [NaN] or an integer [Int z], with exact
      arithmetic on [Z].  The program's numbers are doubles: the model
      agrees with it on the safe integers, from [-(2^53 - 1)] to
      [2^53 - 1] ([safeNum] below).  Beyond them the program rounds
      ([parseInt] of a long digit string, [count + 1] at 2^53) and from
      10^21 it prints in exponent form, which the model does not follow:
      the statements on printing, reading back and incrementing carry the
      bound as a hypothesis.  The sign of zero is left out ([-0] and [0]
      behave alike in every operation the program uses).
    - A JavaScript string is a [string] of code units below 128.
    - A call that can throw returns a [completion]; [try]/[catch] is
      [tryCatch].  [undefined] is [None] of an [option].
    - Logging ([core.info], [core.debug]) and the network calls are left
      out: the tag names and the configuration are arguments.  The
      configured year is a number, the configured update a string. *)

From Stdlib Require Import ZArith List String Ascii Bool Lia.
From Stdlib Require Import Sorting.Sorted Sorting.Permutation.
From Stdlib Require Import Decimal DecimalString DecimalPos DecimalZ.
Import ListNotations.

Local Open Scope string_scope.
Local Open Scope list_scope.
Local Open Scope Z_scope.

(** ** JavaScript primitives used by the program *)

Module JS.

(** *** Numbers *)

Inductive num : Type :=
| NaN : num
| Int : Z -> num.

(** [a === b] and [a !== b] on numbers: [NaN] differs from everything. *)
Definition strictEq (a b : num) : bool :=
  match a, b with
  | Int x, Int y => x =? y
  | _, _ => false
  end.

Definition strictNe (a b : num) : bool := negb (strictEq a b).

(** [a < b] and [a > b]: false as soon as one side is [NaN]. *)
Definition lt (a b : num) : bool :=
  match a, b with
  | Int x, Int y => x <? y
  | _, _ => false
  end.

Definition gt (a b : num) : bool := lt b a.

(** [a - b] and [a + b], exact on [Z].  On doubles the difference of two
    safe integers keeps its sign and is 0 only for equal operands, and
    the sum is exact when it is at most 2^53 in absolute value. *)
Definition sub (a b : num) : num :=
  match a, b with
  | Int x, Int y => Int (x - y)
  | _, _ => NaN
  end.

Definition add (a b : num) : num :=
  match a, b with
  | Int x, Int y => Int (x + y)
  | _, _ => NaN
  end.

(** [`${n}`]: Number::toString in radix 10, all the decimal digits of
    the integer.  This is what the program prints for an integer up to
    2^53 in absolute value; it prints rounded digits beyond, and the
    exponent form ([1e+21]) from 10^21. *)
Definition toString (n : num) : string :=
  match n with
  | NaN => "NaN"
  | Int z => NilZero.string_of_int (Z.to_int z)
  end.

(** *** Completions: a normal result or a thrown error *)

Inductive error : Type := TypeError.

Inductive completion (A : Type) : Type :=
| Normal : A -> completion A
| Throw : error -> completion A.

Arguments Normal {A} _.
Arguments Throw {A} _.

Definition bind {A B : Type} (c : completion A) (k : A -> completion B)
  : completion B :=
  match c with
  | Normal a => k a
  | Throw e => Throw e
  end.

(** [try { c } catch (error) { h error }] *)
Definition tryCatch {A : Type} (c : completion A) (h : error -> completion A)
  : completion A :=
  match c with
  | Normal a => Normal a
  | Throw e => h e
  end.

(** Reading a property of a value that may be [undefined]. *)
Definition member {A : Type} (v : option A) : completion A :=
  match v with
  | Some a => Normal a
  | None => Throw TypeError
  end.

Fixpoint mapM {A B : Type} (f : A -> completion B) (l : list A)
  : completion (list B) :=
  match l with
  | [] => Normal []
  | x :: l' =>
      bind (f x) (fun y => bind (mapM f l') (fun ys => Normal (y :: ys)))
  end.

(** *** Strings *)

(** [s.startsWith(p)] *)
Fixpoint startsWith (s p : string) {struct p} : bool :=
  match p with
  | EmptyString => true
  | String c p' =>
      match s with
      | EmptyString => false
      | String d s' => Ascii.eqb d c && startsWith s' p'
      end
  end.

(** [s.split(sep)] for a one-character separator: never empty. *)
Fixpoint split (s : string) (sep : ascii) : list string :=
  match s with
  | EmptyString => [EmptyString]
  | String c s' =>
      if Ascii.eqb c sep then EmptyString :: split s' sep
      else match split s' sep with
           | p :: ps => String c p :: ps
           | [] => [String c EmptyString]
           end
  end.

(** [s.substr(start, length)] (ECMA-262 B.2.2.1). *)
Definition substr (s : string) (start len : Z) : string :=
  let size := Z.of_nat (String.length s) in
  let intStart := if start <? 0 then Z.max (size + start) 0
                  else Z.min start size in
  let intLength := Z.min (Z.max len 0) size in
  let intEnd := Z.min (intStart + intLength) size in
  String.substring (Z.to_nat intStart) (Z.to_nat (intEnd - intStart)) s.

(** ToString of a value that may be [undefined], as in a template
    literal or an argument of [parseInt]. *)
Definition strOf (v : option string) : string :=
  match v with
  | Some s => s
  | None => "undefined"
  end.

(** The methods of [String.prototype] that return an array of strings
    from a one-character argument.  Calling a property that is not there
    throws a TypeError. *)
Definition StringPrototype (name : string)
  : option (string -> ascii -> list string) :=
  if String.eqb name "split" then Some split else None.

Definition invoke (this name : string) (arg : ascii)
  : completion (list string) :=
  match StringPrototype name with
  | Some f => Normal (f this arg)
  | None => Throw TypeError
  end.

(** [hasChar c s]: the code unit [c] occurs in [s]. *)
Fixpoint hasChar (c : ascii) (s : string) : bool :=
  match s with
  | EmptyString => false
  | String d s' => Ascii.eqb d c || hasChar c s'
  end.

(** *** parseInt (ECMA-262 19.2.5), radix argument absent

    The value of the digits is exact on [Z]; the program rounds it to a
    double, which changes nothing up to 2^53. *)

Definition isWhiteSpace (c : ascii) : bool :=
  let n := nat_of_ascii c in
  ((9 <=? n) && (n <=? 13) || (n =? 32))%nat.

Fixpoint trimStart (s : string) : string :=
  match s with
  | EmptyString => EmptyString
  | String c s' => if isWhiteSpace c then trimStart s' else s
  end.

(** The value of a character as a digit: 0-9, then a-z and A-Z as
    10-35. *)
Definition digitValue (c : ascii) : option Z :=
  let n := Z.of_nat (nat_of_ascii c) in
  if (48 <=? n) && (n <=? 57) then Some (n - 48)
  else if (97 <=? n) && (n <=? 122) then Some (n - 87)
  else if (65 <=? n) && (n <=? 90) then Some (n - 55)
  else None.

Definition isDigit (radix : Z) (c : ascii) : bool :=
  match digitValue c with
  | Some d => d <? radix
  | None => false
  end.

(** The value of the longest prefix of radix-digits, read left to
    right onto [acc]. *)
Fixpoint digits (radix : Z) (s : string) (acc : Z) : Z :=
  match s with
  | EmptyString => acc
  | String c s' =>
      match digitValue c with
      | Some d => if d <? radix then digits radix s' (acc * radix + d)
                  else acc
      | None => acc
      end
  end.

Definition startsWithDigit (radix : Z) (s : string) : bool :=
  match s with
  | EmptyString => false
  | String c _ => isDigit radix c
  end.

Definition parseInt (input : string) : num :=
  let s := trimStart input in
  let '(sign, s) :=
    match s with
    | String "-" r => (-1, r)
    | String "+" r => (1, r)
    | _ => (1, s)
    end in
  let '(radix, s) :=
    match s with
    | String "0" (String "x" r) => (16, r)
    | String "0" (String "X" r) => (16, r)
    | _ => (10, s)
    end in
  if startsWithDigit radix s then Int (sign * digits radix s 0) else NaN.

(** *** Array.prototype.sort with a comparator

    The comparator's result is read as in SortCompare: [NaN] counts as
    0.  The model is the stable insertion sort; for a consistent
    comparator every conforming engine returns this list.  With an
    inconsistent comparator (a [NaN] field) the order is
    implementation-defined and the model is one admissible choice: the
    statements on the order of the sorted tags are about versions, whose
    comparator is consistent. *)

Section Sort.
Context {A : Type} (comparefn : A -> A -> num).

Definition sortCompare (x y : A) : Z :=
  match comparefn x y with
  | NaN => 0
  | Int v => v
  end.

Fixpoint insert (x : A) (l : list A) : list A :=
  match l with
  | [] => [x]
  | y :: l' =>
      if 0 <? sortCompare x y then y :: insert x l' else x :: y :: l'
  end.

Fixpoint sort (l : list A) : list A :=
  match l with
  | [] => []
  | x :: l' => insert x (sort l')
  end.
End Sort.

End JS.

Import JS.

Notation "x <- c ;; k" := (bind c (fun x => k))
  (at level 61, c at next level, right associativity).

(** ** Data model

    A parsed update [{ maj, min }] and a parsed tag [{ year, up, count }]
    ([index.js] names the middle field [sp]). *)

Module Model.

Record Update : Type := { maj : num; min : num }.

Record Tag : Type := { year : num; up : Update; count : num }.

End Model.

Import Model.

(** [compareTags] (part_001:81-99, index.js:80-98 and 307-325): the same
    function in the three revisions. *)
Definition compareTags (a b : Tag) : num :=
  if strictNe (year a) (year b) then sub (year a) (year b)
  else if strictNe (maj (up a)) (maj (up b)) then sub (maj (up a)) (maj (up b))
  else if strictNe (min (up a)) (min (up b)) then sub (min (up a)) (min (up b))
  else if strictNe (count a) (count b) then sub (count a) (count b)
  else Int 0.

(** ** The functions shared by the revisions

    The revisions differ in the marker (["up"] or ["sp"]), in the method
    [parseTag] calls on the tag to cut it at the dots, and in the
    formatter; everything else is written once, over these three. *)

Module Rev.
Section Revision.

Variable marker : string.
Variable cut : string.
Variable formatTag : Tag -> string.

(** [parseUpdate] (part_001:24-38), [parseServicePack]
    (index.js:23-37 and 250-264). *)
Definition parseUpdate (up : string) : completion (option Update) :=
  if negb (startsWith up marker) then Normal None
  else
    let parts := split up "." in
    p0 <- member (nth_error parts 0) ;;
    let maj := parseInt (substr p0 2 (Z.of_nat (String.length p0) - 1)) in
    let min := if (List.length parts =? 1)%nat then Int 0
               else parseInt (strOf (nth_error parts 1)) in
    Normal (Some {| maj := maj; min := min |}).

(** [parseTag] (part_001:40-79, index.js:39-78 and 266-305).  The
    argument is a string, so the [undefined] and [null] tests of the
    first condition are settled by the type. *)
Definition parseTag (tag : string) : completion (option Tag) :=
  tryCatch
    (if (String.length tag =? 0)%nat then Normal None
     else if negb (startsWith tag "v") then Normal None
     else
       parts <- invoke tag cut "." ;;
       if negb (List.length parts =? 3)%nat && negb (List.length parts =? 4)%nat
       then Normal None
       else
         p0 <- member (nth_error parts 0) ;;
         let year := parseInt (substr p0 1 (Z.of_nat (String.length p0) - 1)) in
         if lt year (Int 2000) || gt year (Int 3000) then Normal None
         else
           arg <- (if (List.length parts =? 3)%nat
                   then member (nth_error parts 1)
                   else Normal (strOf (nth_error parts 1) ++ "."
                                  ++ strOf (nth_error parts 2))%string) ;;
           up <- parseUpdate arg ;;
           match up with
           | None => Normal None
           | Some up =>
               let count :=
                 parseInt (strOf (nth_error parts (List.length parts - 1))) in
               if lt count (Int 0) then Normal None
               else Normal (Some {| year := year; up := up; count := count |})
           end)
    (fun _ => Normal None).

(** The body of [getRelevantTags] after the tags are parsed
    (part_001:139-147, index.js:365-373): drop the nulls, sort, keep
    the release line. *)
Definition notNull (tag : option Tag) : bool :=
  match tag with Some _ => true | None => false end.

Fixpoint dropNull (tags : list (option Tag)) : list Tag :=
  match tags with
  | [] => []
  | Some t :: tags' => t :: dropNull tags'
  | None :: tags' => dropNull tags'
  end.

Definition validTags (tags : list (option Tag)) : list Tag :=
  sort compareTags (dropNull tags).

Definition inLine (year : num) (key : Update) (tag : Tag) : bool :=
  strictEq (Model.year tag) (parseInt (toString year))
  && strictEq (maj (up tag)) (maj key)
  && strictEq (min (up tag)) (min key).

Definition relevantTags (tags : list (option Tag)) (year : num)
  (key : Update) : list Tag :=
  filter (inLine year key) (validTags tags).

(** [getRelevantTags] (part_001:121-148, index.js:347-374); [tagData]
    is what [getAllTags] returns, by name. *)
Definition getRelevantTags (tagData : list string) (year : num)
  (update : string) : completion (list Tag) :=
  up <- parseUpdate update ;;
  match up with
  | None => Normal []
  | Some up =>
      tags <- mapM parseTag tagData ;;
      Normal (relevantTags tags year up)
  end.

(** [getLatestTag] (part_001:150-169, index.js:376-395). *)
Definition getLatestTag (sortedTags : list Tag) (year : num)
  (update : string) : completion (option Tag) :=
  if (List.length sortedTags =? 0)%nat then
    up <- parseUpdate update ;;
    let up := match up with
              | None => {| maj := Int 0; min := Int 0 |}
              | Some up => up
              end in
    Normal (Some {| year := year; up := up; count := Int (-1) |})
  else Normal (nth_error sortedTags (List.length sortedTags - 1)).

(** [getNewTag] (part_001:171-177, index.js:397-403). *)
Definition getNewTag (latestTag : option Tag) : completion string :=
  latestTag <- member latestTag ;;
  Normal (formatTag {| year := year latestTag;
                       up := up latestTag;
                       count := add (count latestTag) (Int 1) |}).

(** The three calls of [action] that compute the new tag
    (part_001:209-211, index.js:435-437): the spec's [resolve]. *)
Definition resolve (tagData : list string) (year : num) (update : string)
  : completion string :=
  tags <- getRelevantTags tagData year update ;;
  latestTag <- getLatestTag tags year update ;;
  getNewTag latestTag.

(** The parse result as a value, [null] being [None]. *)
Definition parsed (s : string) : option Tag :=
  match parseTag s with
  | Normal r => r
  | Throw _ => None
  end.

(** The key of the sentinel: the parsed update, or 0.0 when the update
    text is invalid. *)
Definition sentinelKey (update : string) : Update :=
  match parseUpdate update with
  | Normal (Some key) => key
  | _ => {| maj := Int 0; min := Int 0 |}
  end.

(** The tags [parseTag] accepts. *)
Definition accepted (name : string) : bool :=
  notNull (parsed name).

End Revision.
End Rev.

(** ** The revision of [src/unnamed/part_001] *)

Module Up.

(** [formatTag] (part_001:116-119): the minor is always written. *)
Definition formatTag (tag : Tag) : string :=
  let up := ("up" ++ toString (maj (up tag)) ++ "."
               ++ toString (min (up tag)))%string in
  ("v" ++ toString (year tag) ++ "." ++ up ++ "."
     ++ toString (count tag))%string.

Definition parseUpdate := Rev.parseUpdate "up".

(** Line 52 reads [tag.uplit(".")]. *)
Definition parseTag := Rev.parseTag "up" "uplit".

Definition relevantTags := Rev.relevantTags.
Definition accepted := Rev.accepted "up" "uplit".
Definition sentinelKey := Rev.sentinelKey "up".
Definition getRelevantTags := Rev.getRelevantTags "up" "uplit".
Definition getLatestTag := Rev.getLatestTag "up".
Definition getNewTag := Rev.getNewTag formatTag.
Definition resolve := Rev.resolve "up" "uplit" formatTag.

End Up.

(** ** The previous revision: [src/index.js], lines 227-455 *)

Module Sp.

(** [formatTag] (index.js:342-345): the minor is written when it is
    not 0. *)
Definition formatTag (tag : Tag) : string :=
  let sp := if strictEq (min (up tag)) (Int 0)
            then ("sp" ++ toString (maj (up tag)))%string
            else ("sp" ++ toString (maj (up tag)) ++ "."
                    ++ toString (min (up tag)))%string in
  ("v" ++ toString (year tag) ++ "." ++ sp ++ "."
     ++ toString (count tag))%string.

Definition parseServicePack := Rev.parseUpdate "sp".

(** Line 278 reads [tag.split(".")]. *)
Definition parseTag := Rev.parseTag "sp" "split".

Definition accepted := Rev.accepted "sp" "split".
Definition sentinelKey := Rev.sentinelKey "sp".
Definition getRelevantTags := Rev.getRelevantTags "sp" "split".
Definition getLatestTag := Rev.getLatestTag "sp".
Definition getNewTag := Rev.getNewTag formatTag.
Definition resolve := Rev.resolve "sp" "split" formatTag.

End Sp.

(** ** The first revision: [src/index.js], lines 1-226

    [parseServicePack], [parseTag] and [compareTags] are those of the
    previous revision.  What differs is modelled from the parsed tags
    on. *)

Module Sp0.

(** The callback of the filter at line 148.  It runs on [tags], nulls
    included: reading [tag.year] of a null throws.  The year is compared
    as the configuration gives it. *)
Definition inLine (year : num) (sp : Update) (tag : option Tag)
  : completion bool :=
  tag <- member tag ;;
  Normal (strictEq (Model.year tag) year
          && strictEq (maj (up tag)) (maj sp)
          && strictEq (min (up tag)) (min sp)).

(** [tags.filter(callback)] with a callback that can throw. *)
Fixpoint filterM (p : option Tag -> completion bool) (tags : list (option Tag))
  : completion (list (option Tag)) :=
  match tags with
  | [] => Normal []
  | tag :: tags' =>
      keep <- p tag ;;
      rest <- filterM p tags' ;;
      Normal (if keep then tag :: rest else rest)
  end.

(** Line 148 of [getRelevantTags]: the sorted [validTags] of lines
    143-145 is not used. *)
Definition relevantTags (tags : list (option Tag)) (year : num) (sp : Update)
  : completion (list (option Tag)) :=
  filterM (inLine year sp) tags.

(** [getLatestTag] (index.js:154-169): the first element. *)
Definition getLatestTag (sortedTags : list (option Tag)) (year : num)
  (servicePack : string) : completion (option Tag) :=
  if (List.length sortedTags =? 0)%nat then
    sp <- Rev.parseUpdate "sp" servicePack ;;
    let sp := match sp with
              | None => {| maj := Int 0; min := Int 0 |}
              | Some sp => sp
              end in
    Normal (Some {| year := year; up := sp; count := Int (-1) |})
  else
    match nth_error sortedTags 0 with
    | Some tag => Normal tag
    | None => Normal None
    end.

(** [getNewTag] (index.js:171-174): no marker is written. *)
Definition getNewTag (latestTag : option Tag) : completion string :=
  latestTag <- member latestTag ;;
  let sp := if strictEq (min (up latestTag)) (Int 0)
            then toString (maj (up latestTag))
            else (toString (maj (up latestTag)) ++ "."
                    ++ toString (min (up latestTag)))%string in
  Normal ("v" ++ toString (year latestTag) ++ "." ++ sp ++ "."
            ++ toString (add (count latestTag) (Int 1)))%string.

End Sp0.

(** ** Listing the tags and running the action

    [getAllTags], [tagCommit], [action] and [run] are the same in
    part_001 and in the second document of [index.js], up to the marker
    and the name of the configuration key.  The remote is a parameter:
    [listTags page] is the [data] of the answer to
    [octokit.rest.repos.listTags] for that page with [per_page: 100]
    (the names of the tags), and [createRef ref sha] is the outcome of
    [octokit.rest.git.createRef].  The listing requests are taken to
    succeed.  What the action does to the outside is recorded as a trace
    of steps. *)

Module Act.

(** [process.env]: a variable that is not set is [undefined]. *)
Record Env : Type :=
  { GITHUB_REF : option string; GITHUB_SHA : option string }.

(** The object [getConfig] returns; a key that is absent from the file
    reads as [undefined].  The year is a number. *)
Record Config : Type := { year : num; update : option string }.

Inductive Message : Type :=
| Text : string -> Message
| MessageOf : error -> Message.

Inductive Step : Type :=
| SetFailed : Message -> Step
| SetOutput : option string -> Step
| CreateRef : string -> string -> Step.

(** [!x] on a string that may be [undefined]: the empty string is
    falsy too. *)
Definition falsy (x : option string) : bool :=
  match x with
  | None => true
  | Some s => (String.length s =? 0)%nat
  end.

Section Run.

Variable marker : string.
Variable cut : string.
Variable formatTag : Tag -> string.
Variable listTags : nat -> list string.
Variable createRef : string -> string -> completion unit.

(** [getAllTags] (part_001:101-114, index.js:327-340).  The recursion
    stops at the first page shorter than 100; [fuel] bounds the number
    of requests, [None] is "still asking". *)
Fixpoint getAllTags (fuel : nat) (fetchedTags : list string) (page : nat)
  : option (list string) :=
  match fuel with
  | O => None
  | S fuel' =>
      let data := listTags page in
      if (List.length data <? 100)%nat then Some (fetchedTags ++ data)
      else getAllTags fuel' (fetchedTags ++ data) (page + 1)
  end.

(** [getRelevantTags] (part_001:121-148, index.js:347-374) with its
    request; [update.startsWith] throws when [update] is [undefined]. *)
Definition getRelevantTags (fuel : nat) (year : num) (update : option string)
  : option (completion (list Tag)) :=
  match (update <- member update ;; Rev.parseUpdate marker update) with
  | Throw e => Some (Throw e)
  | Normal None => Some (Normal [])
  | Normal (Some up) =>
      match getAllTags fuel [] 1 with
      | None => None
      | Some tagData =>
          Some (tags <- mapM (Rev.parseTag marker cut) tagData ;;
                Normal (Rev.relevantTags tags year up))
      end
  end.

(** [getLatestTag] with an update that may be [undefined]: it is read
    only when the line is empty. *)
Definition getLatestTag (sortedTags : list Tag) (year : num)
  (update : option string) : completion (option Tag) :=
  match update with
  | Some update => Rev.getLatestTag marker sortedTags year update
  | None =>
      if (List.length sortedTags =? 0)%nat then Throw TypeError
      else Normal (nth_error sortedTags (List.length sortedTags - 1))
  end.

(** [action] (part_001:188-219, index.js:414-445) with [tagCommit]
    (part_001:179-186, index.js:405-412) inlined: the completion of the
    body and the steps it made. *)
Definition action (fuel : nat) (env : Env) (config : option Config)
  : option (completion unit * list Step) :=
  if falsy (GITHUB_REF env)
  then Some (Normal tt, [SetFailed (Text "Missing GITHUB_REF.")])
  else if falsy (GITHUB_SHA env)
  then Some (Normal tt, [SetFailed (Text "Missing GITHUB_SHA.")])
  else
    match config with
    | None => Some (Normal tt, [SetOutput None])
    | Some config =>
        match getRelevantTags fuel (year config) (update config) with
        | None => None
        | Some (Throw e) => Some (Throw e, [])
        | Some (Normal tags) =>
            match (latestTag <- getLatestTag tags (year config)
                                  (update config) ;;
                   Rev.getNewTag formatTag latestTag) with
            | Throw e => Some (Throw e, [])
            | Normal newTag =>
                let ref := ("refs/tags/" ++ newTag)%string in
                let sha := strOf (GITHUB_SHA env) in
                match createRef ref sha with
                | Throw e => Some (Throw e, [CreateRef ref sha])
                | Normal _ =>
                    Some (Normal tt,
                          [CreateRef ref sha; SetOutput (Some newTag)])
                end
            end
        end
    end.

(** [run] (part_001:221-227, index.js:447-453): an error thrown by
    [action] ends as [core.setFailed(error.message)]. *)
Definition run (fuel : nat) (env : Env) (config : option Config)
  : option (list Step) :=
  match action fuel env config with
  | None => None
  | Some (Normal _, steps) => Some steps
  | Some (Throw e, steps) => Some (steps ++ [SetFailed (MessageOf e)])
  end.

End Run.
End Act.

(** ** Vocabulary of the statements

    A [Version] of the specification's data model is four integers; its
    tag is the object the program handles.  [compare] reads the number
    [compareTags] returns as less, equal or greater; [lexCompare] is the
    order the specification words: year, then update major, then update
    minor, then counter. *)

Record Version : Type :=
  { vyear : Z; vmajor : Z; vminor : Z; vcounter : Z }.

Definition toTag (v : Version) : Tag :=
  {| year := Int (vyear v);
     up := {| maj := Int (vmajor v); min := Int (vminor v) |};
     count := Int (vcounter v) |}.

Definition compare (a b : Tag) : option comparison :=
  match compareTags a b with
  | NaN => None
  | Int z => Some (z ?= 0)
  end.

Definition lexCompare (a b : Version) : comparison :=
  match vyear a ?= vyear b with
  | Eq =>
      match vmajor a ?= vmajor b with
      | Eq =>
          match vminor a ?= vminor b with
          | Eq => vcounter a ?= vcounter b
          | c => c
          end
      | c => c
      end
  | c => c
  end.

(** The comparator read on versions, and "not greater" in the order of
    the specification. *)
Definition compareVersions (a b : Version) : num :=
  compareTags (toTag a) (toTag b).

Definition notAfter (a b : Version) : Prop := lexCompare a b <> Gt.

(** The version that follows [v] in its release line. *)
Definition successor (v : Version) : Version :=
  {| vyear := vyear v; vmajor := vmajor v; vminor := vminor v;
     vcounter := vcounter v + 1 |}.

(** The remote that serves the list [all] in pages of 100, pages
    numbered from 1. *)
Definition pageOf (all : list string) (page : nat) : list string :=
  firstn 100 (skipn (100 * (page - 1)) all).

(** A tag all of whose fields are numbers. *)
Definition integral (t : Tag) : Prop := exists v, t = toTag v.

(** [Number.MAX_SAFE_INTEGER], 2^53 - 1.  A number is safe when it is
    [NaN] or an integer of at most that absolute value: on the safe
    numbers the program's doubles and the numbers of the model print,
    read back and increment alike. *)
Definition maxSafe : Z := 9007199254740991.

Definition safeNum (n : num) : Prop :=
  match n with
  | NaN => True
  | Int z => - maxSafe <= z <= maxSafe
  end.

Definition safeUpdate (u : Update) : Prop :=
  safeNum (maj u) /\ safeNum (min u).

Definition safeTag (t : Tag) : Prop :=
  safeNum (year t) /\ safeUpdate (up t) /\ safeNum (count t).

Definition safeVersion (v : Version) : Prop := safeTag (toTag v).

(** ** Facts about the primitives *)

Section Primitives.

Lemma split_nonempty (s : string) (sep : ascii) :
  exists p ps, split s sep = p :: ps.
Proof.
  induction s as [|c s IH]; simpl.
  - now exists EmptyString, [].
  - destruct (Ascii.eqb c sep).
    + now exists EmptyString, (split s sep).
    + destruct IH as (p & ps & ->). now exists (String c p), ps.
Qed.

Lemma split_no_sep (a : string) (sep : ascii) :
  hasChar sep a = false -> split a sep = [a].
Proof.
  induction a as [|c a IH]; simpl; intros H; [reflexivity|].
  apply orb_false_iff in H as [-> H]. now rewrite (IH H).
Qed.

Lemma split_app_sep (a r : string) (sep : ascii) :
  hasChar sep a = false ->
  split (a ++ String sep r) sep = a :: split r sep.
Proof.
  induction a as [|c a IH]; simpl; intros H.
  - now rewrite Ascii.eqb_refl.
  - apply orb_false_iff in H as [-> H]. now rewrite (IH H).
Qed.

Lemma append_assoc (a b c : string) :
  ((a ++ b) ++ c = a ++ (b ++ c))%string.
Proof. induction a; cbn; congruence. Qed.

Lemma substring_all (s : string) :
  String.substring 0 (String.length s) s = s.
Proof. induction s; simpl; congruence. Qed.

(** [s.substr(k, s.length - 1)] drops the first [k] code units when
    [k] is 1 or 2 and [s] is that long. *)
Lemma substr_drop1 (c : ascii) (s : string) :
  substr (String c s) 1 (Z.of_nat (String.length (String c s)) - 1) = s.
Proof.
  unfold substr. cbn [String.length].
  set (n := String.length s).
  replace (1 <? 0) with false by reflexivity.
  replace (Z.to_nat (Z.min 1 (Z.of_nat (S n)))) with 1%nat by lia.
  replace (Z.to_nat _) with n by lia.
  simpl. apply substring_all.
Qed.

Lemma substr_drop2 (c d : ascii) (s : string) :
  substr (String c (String d s)) 2
    (Z.of_nat (String.length (String c (String d s))) - 1) = s.
Proof.
  unfold substr. cbn [String.length].
  set (n := String.length s).
  replace (2 <? 0) with false by reflexivity.
  replace (Z.to_nat (Z.min 2 (Z.of_nat (S (S n))))) with 2%nat by lia.
  replace (Z.to_nat _) with n by lia.
  simpl. apply substring_all.
Qed.

Lemma tryCatch_total {A : Type} (c : completion A) (d : A) :
  exists r, tryCatch c (fun _ => Normal d) = Normal r.
Proof. destruct c; simpl; eauto. Qed.

Lemma mapM_total {A B : Type} (f : A -> completion B) (g : A -> B)
  (l : list A) :
  (forall x, f x = Normal (g x)) -> mapM f l = Normal (map g l).
Proof.
  intros H. induction l as [|x l IH]; simpl; [reflexivity|].
  now rewrite H, IH.
Qed.

End Primitives.

(** ** The parsers *)

Section Parsers.

Variables marker cut : string.

Lemma parseUpdate_total (s : string) :
  exists r, Rev.parseUpdate marker s = Normal r.
Proof.
  unfold Rev.parseUpdate. destruct (startsWith s marker); simpl; eauto.
  destruct (split_nonempty s ".") as (p & ps & ->). simpl. eauto.
Qed.

Lemma parseUpdate_wrong_prefix (s : string) :
  startsWith s marker = false -> Rev.parseUpdate marker s = Normal None.
Proof. unfold Rev.parseUpdate. now intros ->. Qed.

Lemma parseUpdate_null_iff (s : string) :
  Rev.parseUpdate marker s = Normal None <-> startsWith s marker = false.
Proof.
  split; [|apply parseUpdate_wrong_prefix].
  unfold Rev.parseUpdate. destruct (startsWith s marker); simpl; [|easy].
  destruct (split_nonempty s ".") as (p & ps & ->). simpl. discriminate.
Qed.

Lemma parseTag_total (s : string) :
  exists r, Rev.parseTag marker cut s = Normal r.
Proof. unfold Rev.parseTag. apply tryCatch_total. Qed.

Lemma parseTag_parsed (s : string) :
  Rev.parseTag marker cut s = Normal (Rev.parsed marker cut s).
Proof.
  unfold Rev.parsed. destruct (parseTag_total s) as [r ->]. reflexivity.
Qed.

End Parsers.

(** In part_001 the call at line 52 throws, the [catch] returns [null]:
    no tag is ever accepted. *)
Lemma Up_parseTag_rejects_all (tag : string) :
  Up.parseTag tag = Normal None.
Proof.
  unfold Up.parseTag, Rev.parseTag.
  destruct (String.length tag =? 0)%nat; [reflexivity|].
  destruct (startsWith tag "v"); reflexivity.
Qed.

Lemma Up_split_marked (a r : string) :
  hasChar "." a = false ->
  split ("up" ++ a ++ String "." r) "." = ("up" ++ a)%string :: split r ".".
Proof.
  intros H.
  change ("up" ++ a ++ String "." r)%string
    with (("up" ++ a) ++ String "." r)%string.
  apply split_app_sep. exact H.
Qed.

(** What [parseUpdate] returns on [up<a>.<b>] followed by anything. *)
Lemma Up_parseUpdate_two (a b : string) (rest : list string) (s : string) :
  split s "." = ("up" ++ a)%string :: b :: rest ->
  startsWith s "up" = true ->
  Up.parseUpdate s = Normal (Some {| maj := parseInt a; min := parseInt b |}).
Proof.
  intros Hs Hp. unfold Up.parseUpdate, Rev.parseUpdate.
  rewrite Hp, Hs. cbn [negb nth_error member bind List.length Nat.eqb strOf].
  change ("up" ++ a)%string with (String "u" (String "p" a)).
  now rewrite substr_drop2.
Qed.

(** C10.  For every text [up<a>.<b>.<c>] (no dot in [a] or [b], anything
    in [c]), [parseUpdate] does not return invalid: it returns the update
    it returns for [up<a>.<b>], with major [parseInt a] and minor
    [parseInt b]; what follows the second segment is ignored. *)
Theorem parseUpdate_ignores_extra_segments (a b c : string) :
  hasChar "." a = false ->
  hasChar "." b = false ->
  Up.parseUpdate ("up" ++ a ++ "." ++ b ++ "." ++ c)
    = Up.parseUpdate ("up" ++ a ++ "." ++ b)
  /\ Up.parseUpdate ("up" ++ a ++ "." ++ b ++ "." ++ c)
    = Normal (Some {| maj := parseInt a; min := parseInt b |}).
Proof.
  intros Ha Hb.
  assert (H3 : Up.parseUpdate ("up" ++ a ++ "." ++ b ++ "." ++ c)
               = Normal (Some {| maj := parseInt a; min := parseInt b |})).
  { apply Up_parseUpdate_two with (rest := split c "."); [|reflexivity].
    change ("." ++ b ++ "." ++ c)%string with (String "." (b ++ String "." c)).
    rewrite (Up_split_marked a _ Ha). f_equal.
    now apply split_app_sep. }
  assert (H2 : Up.parseUpdate ("up" ++ a ++ "." ++ b)
               = Normal (Some {| maj := parseInt a; min := parseInt b |})).
  { apply Up_parseUpdate_two with (rest := []); [|reflexivity].
    change ("." ++ b)%string with (String "." b).
    rewrite (Up_split_marked a _ Ha). f_equal.
    now apply split_no_sep. }
  split; [now rewrite H3, H2 | exact H3].
Qed.

Lemma parseUpdate_ignores_extra_segments_witness :
  Up.parseUpdate ("up" ++ "1" ++ "." ++ "2" ++ "." ++ "3.4")
    = Up.parseUpdate ("up" ++ "1" ++ "." ++ "2")
  /\ Up.parseUpdate ("up" ++ "1" ++ "." ++ "2" ++ "." ++ "3.4")
    = Normal (Some {| maj := parseInt "1"; min := parseInt "2" |}).
Proof.
  apply (parseUpdate_ignores_extra_segments "1" "2" "3.4"); reflexivity.
Defined.

(** ** Parsing never throws, and what it rejects *)

Section Rejection.

Variables marker cut : string.

Lemma parseTag_wrong_prefix (s : string) :
  startsWith s "v" = false -> Rev.parseTag marker cut s = Normal None.
Proof.
  intros H. unfold Rev.parseTag. rewrite H.
  destruct (String.length s =? 0)%nat; reflexivity.
Qed.

Lemma parseTag_wrong_count (s : string) :
  List.length (split s ".") <> 3%nat ->
  List.length (split s ".") <> 4%nat ->
  Rev.parseTag marker cut s = Normal None.
Proof.
  intros H3 H4. unfold Rev.parseTag, invoke, StringPrototype.
  destruct (String.length s =? 0)%nat; [reflexivity|].
  destruct (startsWith s "v"); [|reflexivity].
  destruct (String.eqb cut "split"); [|reflexivity].
  cbn [bind].
  apply Nat.eqb_neq in H3, H4. rewrite H3, H4. reflexivity.
Qed.

(** What the two range tests let through. *)
Lemma parseTag_accepted (s : string) (t : Tag) :
  Rev.parseTag marker cut s = Normal (Some t) ->
  lt (year t) (Int 2000) = false /\ gt (year t) (Int 3000) = false
  /\ lt (count t) (Int 0) = false.
Proof.
  unfold Rev.parseTag.
  destruct (String.length s =? 0)%nat; [discriminate|].
  destruct (startsWith s "v"); [|discriminate].
  destruct (invoke s cut ".") as [parts|e]; [|discriminate].
  cbn [bind].
  destruct (negb _ && negb _); [discriminate|].
  destruct (member (nth_error parts 0)) as [p0|e]; [|discriminate].
  cbn [bind].
  destruct (lt _ (Int 2000)) eqn:Elo; [discriminate|].
  destruct (gt _ (Int 3000)) eqn:Ehi; [discriminate|].
  cbn [orb].
  destruct (if (List.length parts =? 3)%nat then _ else _) as [arg|e];
    [|discriminate].
  cbn [bind].
  destruct (Rev.parseUpdate marker arg) as [[u|]|e]; try discriminate.
  cbn [bind].
  destruct (lt _ (Int 0)) eqn:Ec; [discriminate|].
  cbn [tryCatch]. intros [= <-]. cbn. auto.
Qed.

End Rejection.

(** C9, as the code has it.  For every string, [parseUpdate] and
    [parseTag] return normally (no exception reaches the caller); a text
    without the marker is invalid for [parseUpdate]; a tag without the
    leading [v], or with a number of dot-separated segments other than 3
    and 4, is invalid for [parseTag]. *)
Theorem parsers_never_throw (s : string) :
  (exists r, Up.parseUpdate s = Normal r)
  /\ (exists r, Up.parseTag s = Normal r)
  /\ (startsWith s "up" = false -> Up.parseUpdate s = Normal None)
  /\ (startsWith s "v" = false -> Up.parseTag s = Normal None)
  /\ (List.length (split s ".") <> 3%nat ->
      List.length (split s ".") <> 4%nat -> Up.parseTag s = Normal None).
Proof.
  split; [apply parseUpdate_total|].
  split; [apply parseTag_total|].
  split; [apply parseUpdate_wrong_prefix|].
  split; [apply parseTag_wrong_prefix | apply parseTag_wrong_count].
Qed.

Lemma parsers_never_throw_witness :
  Up.parseUpdate "sp1" = Normal None
  /\ Up.parseTag "2024.up1.0" = Normal None
  /\ Up.parseTag "v2024.up1" = Normal None.
Proof.
  destruct (parsers_never_throw "sp1") as (_ & _ & H1 & _).
  destruct (parsers_never_throw "2024.up1.0") as (_ & _ & _ & H2 & _).
  destruct (parsers_never_throw "v2024.up1") as (_ & _ & _ & _ & H3).
  split; [apply H1; reflexivity|].
  split; [apply H2; reflexivity|].
  apply H3; cbn; discriminate.
Defined.

(** The same holds in the previous revision, whose [parseTag] reaches
    its tests. *)
Lemma Sp_parsers_never_throw (s : string) :
  (exists r, Sp.parseServicePack s = Normal r)
  /\ (exists r, Sp.parseTag s = Normal r)
  /\ (startsWith s "sp" = false -> Sp.parseServicePack s = Normal None)
  /\ (startsWith s "v" = false -> Sp.parseTag s = Normal None)
  /\ (List.length (split s ".") <> 3%nat ->
      List.length (split s ".") <> 4%nat -> Sp.parseTag s = Normal None).
Proof.
  split; [apply parseUpdate_total|].
  split; [apply parseTag_total|].
  split; [apply parseUpdate_wrong_prefix|].
  split; [apply parseTag_wrong_prefix | apply parseTag_wrong_count].
Qed.

(** C9 as stated fails: an update text with a third segment, and one
    whose major is not a number, are not converted to invalid. *)
Lemma parseUpdate_accepts_malformed :
  Up.parseUpdate "up1.2.3" = Normal (Some {| maj := Int 1; min := Int 2 |})
  /\ Up.parseUpdate "upx" = Normal (Some {| maj := NaN; min := Int 0 |})
  /\ ~ (forall s : string,
         (2 < List.length (split s "."))%nat -> Up.parseUpdate s = Normal None).
Proof.
  split; [reflexivity|]. split; [reflexivity|].
  intros H. specialize (H "up1.2.3"). cbn in H.
  discriminate H. lia.
Qed.

(** C7 fails on the parser of [index.js]: a year or a counter that is
    not a number parses to [NaN], and [NaN] passes both range tests. *)
Theorem parseTag_accepts_NaN :
  Sp.parseTag "vabc.sp1.0"
    = Normal (Some {| year := NaN;
                      up := {| maj := Int 1; min := Int 0 |};
                      count := Int 0 |})
  /\ Sp.parseTag "v2024.sp1.x"
    = Normal (Some {| year := Int 2024;
                      up := {| maj := Int 1; min := Int 0 |};
                      count := NaN |}).
Proof. split; reflexivity. Qed.

(** The numeric parts of C7 that the tests do enforce, in [index.js]: a
    year that parses to a number outside [2000, 3000] and a counter that
    parses to a negative number are never accepted. *)
Lemma Sp_parseTag_range (s : string) (t : Tag) :
  Sp.parseTag s = Normal (Some t) ->
  (year t = NaN \/ exists y, year t = Int y /\ 2000 <= y <= 3000)
  /\ (count t = NaN \/ exists c, count t = Int c /\ 0 <= c).
Proof.
  intros H. apply parseTag_accepted in H as (Hlo & Hhi & Hc).
  unfold gt, lt in *. split.
  - destruct (year t) as [|y]; [now left|right]. exists y. split; [easy|lia].
  - destruct (count t) as [|c]; [now left|right]. exists c. split; [easy|lia].
Qed.

(** C3 fails on part_001: a well-formed tag is rejected, so formatting
    the parse of it cannot give it back; the previous revision parses
    the same tag (with its marker) and formats it back. *)
Theorem roundtrip_breaks_at_parseTag :
  Up.parseTag "v2024.up1.0" = Normal None
  /\ Up.parseTag (Up.formatTag {| year := Int 2024;
                                 up := {| maj := Int 1; min := Int 0 |};
                                 count := Int 0 |}) = Normal None
  /\ (exists t, Sp.parseTag "v2024.sp1.0" = Normal (Some t)
                /\ Sp.formatTag t = "v2024.sp1.0").
Proof.
  split; [reflexivity|]. split; [reflexivity|].
  eexists. split; reflexivity.
Qed.

(** ** The resolver *)

Section Resolver.

Variables marker cut : string.
Variable formatTag : Tag -> string.

Let parseUpdate := Rev.parseUpdate marker.
Let getRelevantTags := Rev.getRelevantTags marker cut.
Let getLatestTag := Rev.getLatestTag marker.
Let getNewTag := Rev.getNewTag formatTag.
Let resolve := Rev.resolve marker cut formatTag.

Lemma getRelevantTags_unfold (tagData : list string) (year : num)
  (update : string) :
  getRelevantTags tagData year update =
    match parseUpdate update with
    | Normal None => Normal []
    | Normal (Some key) =>
        Normal (Rev.relevantTags (map (Rev.parsed marker cut) tagData) year key)
    | Throw e => Throw e
    end.
Proof.
  unfold getRelevantTags, Rev.getRelevantTags, parseUpdate.
  destruct (Rev.parseUpdate marker update) as [[key|]|e]; cbn [bind];
    try reflexivity.
  rewrite (mapM_total _ (Rev.parsed marker cut)); [reflexivity|].
  apply parseTag_parsed.
Qed.

Lemma getRelevantTags_invalid_update (tagData : list string) (year : num)
  (update : string) :
  parseUpdate update = Normal None ->
  getRelevantTags tagData year update = Normal [].
Proof. intros H. rewrite getRelevantTags_unfold, H. reflexivity. Qed.

Lemma getRelevantTags_total (tagData : list string) (year : num)
  (update : string) :
  exists line, getRelevantTags tagData year update = Normal line.
Proof.
  rewrite getRelevantTags_unfold.
  destruct (parseUpdate_total marker update) as [[key|] H];
    unfold parseUpdate; rewrite H; eauto.
Qed.

Lemma getLatestTag_empty (year : num) (update : string) :
  getLatestTag [] year update
  = Normal (Some {| year := year; up := Rev.sentinelKey marker update;
                    count := Int (-1) |}).
Proof.
  unfold getLatestTag, Rev.getLatestTag, Rev.sentinelKey.
  cbn [List.length Nat.eqb].
  destruct (parseUpdate_total marker update) as [[key|] ->]; reflexivity.
Qed.

Lemma nth_error_last {A : Type} (l : list A) (d : A) :
  l <> [] -> nth_error l (List.length l - 1) = Some (last l d).
Proof.
  induction l as [|x [|y l] IH]; intros H; [easy|reflexivity|].
  specialize (IH ltac:(discriminate)).
  cbn [List.length Nat.sub] in *. rewrite Nat.sub_0_r in IH.
  cbn [nth_error]. rewrite IH. reflexivity.
Qed.

Lemma getLatestTag_nonempty (line : list Tag) (year : num)
  (update : string) (d : Tag) :
  line <> [] -> getLatestTag line year update = Normal (Some (last line d)).
Proof.
  intros H. unfold getLatestTag, Rev.getLatestTag.
  destruct line as [|x l]; [easy|]. cbn [List.length Nat.eqb].
  change (S (List.length l)) with (List.length (x :: l)).
  now rewrite (nth_error_last _ d).
Qed.

Lemma getLatestTag_total (line : list Tag) (year : num) (update : string) :
  exists t, getLatestTag line year update = Normal (Some t).
Proof.
  destruct line as [|x l].
  - rewrite getLatestTag_empty. eauto.
  - rewrite (getLatestTag_nonempty _ _ _ x); [eauto|discriminate].
Qed.

Lemma resolve_total (tagData : list string) (year : num) (update : string) :
  exists s, resolve tagData year update = Normal s.
Proof.
  unfold resolve, Rev.resolve.
  destruct (getRelevantTags_total tagData year update) as [line H].
  unfold getRelevantTags in H. rewrite H. cbn [bind].
  destruct (getLatestTag_total line year update) as [t Ht].
  unfold getLatestTag in Ht. rewrite Ht. cbn. eauto.
Qed.

Lemma resolve_empty_line (tagData : list string) (year : num)
  (update : string) :
  getRelevantTags tagData year update = Normal [] ->
  resolve tagData year update
  = Normal (formatTag {| year := year; up := Rev.sentinelKey marker update;
                         count := Int 0 |}).
Proof.
  intros H. unfold resolve, Rev.resolve.
  unfold getRelevantTags in H. rewrite H. cbn [bind].
  pose proof (getLatestTag_empty year update) as E.
  unfold getLatestTag in E. rewrite E. reflexivity.
Qed.

Lemma dropNull_accepted (tagData : list string) :
  Rev.dropNull
    (map (Rev.parsed marker cut) (filter (Rev.accepted marker cut) tagData))
  = Rev.dropNull (map (Rev.parsed marker cut) tagData).
Proof.
  induction tagData as [|n l IH]; [reflexivity|].
  cbn [filter map]. unfold Rev.accepted at 1.
  destruct (Rev.parsed marker cut n) as [t|] eqn:E; cbn [Rev.notNull].
  - cbn [map Rev.dropNull]. rewrite E. cbn [Rev.dropNull]. now rewrite IH.
  - cbn [Rev.dropNull]. exact IH.
Qed.

Lemma resolve_drops_rejected (tagData : list string) (year : num)
  (update : string) :
  resolve tagData year update
  = resolve (filter (Rev.accepted marker cut) tagData) year update.
Proof.
  unfold resolve, Rev.resolve.
  pose proof (getRelevantTags_unfold tagData year update) as E1.
  pose proof (getRelevantTags_unfold
                (filter (Rev.accepted marker cut) tagData) year update) as E2.
  unfold getRelevantTags in E1, E2. rewrite E1, E2.
  unfold Rev.relevantTags, Rev.validTags. now rewrite dropNull_accepted.
Qed.

End Resolver.

(** ** The resolver of part_001 *)

(** No tag is accepted (line 52), so the release line of part_001 is
    always empty. *)
Lemma Up_line_always_empty (tagData : list string) (year : num)
  (update : string) :
  Up.getRelevantTags tagData year update = Normal [].
Proof.
  unfold Up.getRelevantTags. rewrite getRelevantTags_unfold.
  destruct (Rev.parseUpdate "up" update) as [[key|]|e] eqn:E.
  - f_equal. unfold Rev.relevantTags, Rev.validTags.
    replace (Rev.dropNull (map (Rev.parsed "up" "uplit") tagData))
      with (@nil Tag); [reflexivity|].
    induction tagData as [|n l IH]; [reflexivity|].
    cbn [map]. unfold Rev.parsed at 1.
    fold Up.parseTag. rewrite Up_parseTag_rejects_all. exact IH.
  - reflexivity.
  - destruct (parseUpdate_total "up" update) as [r H]. congruence.
Qed.

(** C1 fails on part_001: with tags of counters 0 and 1 in the release
    line, [resolve] returns counter 0 again, because the line it
    computes is empty for every input; the previous revision returns
    counter 2 on the same tags under its marker. *)
Theorem resolve_never_increments :
  Up.resolve ["v2024.up1.0"; "v2024.up1.1"] (Int 2024) "up1"
  = Normal "v2024.up1.0.0"
  /\ (forall tagData year update,
        Up.getRelevantTags tagData year update = Normal [])
  /\ Sp.resolve ["v2024.sp1.0"; "v2024.sp1.1"] (Int 2024) "sp1"
     = Normal "v2024.sp1.2".
Proof.
  split; [reflexivity|]. split; [apply Up_line_always_empty | reflexivity].
Qed.

(** C8.  When the configured update text fails to parse, the release
    line is the empty sequence, returned normally, whatever the tags and
    the year; resolution goes on from the sentinel of update 0.0 and
    returns [v<year>.up0.0.0]. *)
Theorem invalid_update_gives_empty_line (tagData : list string) (year : num)
  (update : string) :
  Up.parseUpdate update = Normal None ->
  Up.getRelevantTags tagData year update = Normal []
  /\ Up.getLatestTag [] year update
     = Normal (Some {| year := year;
                       up := {| maj := Int 0; min := Int 0 |};
                       count := Int (-1) |})
  /\ Up.resolve tagData year update
     = Normal ("v" ++ toString year ++ ".up0.0.0")%string.
Proof.
  intros H.
  assert (Hline : Up.getRelevantTags tagData year update = Normal [])
    by now apply getRelevantTags_invalid_update.
  assert (Hkey : Up.sentinelKey update = {| maj := Int 0; min := Int 0 |}).
  { unfold Up.sentinelKey, Rev.sentinelKey.
    unfold Up.parseUpdate in H. now rewrite H. }
  split; [exact Hline|]. split.
  - unfold Up.getLatestTag. rewrite getLatestTag_empty.
    fold Up.sentinelKey. now rewrite Hkey.
  - unfold Up.resolve. rewrite resolve_empty_line by exact Hline.
    fold Up.sentinelKey. rewrite Hkey. reflexivity.
Qed.

Lemma invalid_update_gives_empty_line_witness :
  Up.getRelevantTags ["v2024.up1.0"; "v2024.sp1.0"] (Int 2024) "sp1"
  = Normal []
  /\ Up.getLatestTag [] (Int 2024) "sp1"
     = Normal (Some {| year := Int 2024;
                       up := {| maj := Int 0; min := Int 0 |};
                       count := Int (-1) |})
  /\ Up.resolve ["v2024.up1.0"; "v2024.sp1.0"] (Int 2024) "sp1"
     = Normal ("v" ++ toString (Int 2024) ++ ".up0.0.0")%string.
Proof.
  apply (invalid_update_gives_empty_line
           ["v2024.up1.0"; "v2024.sp1.0"] (Int 2024) "sp1").
  reflexivity.
Defined.

(** C2.  When the release line is empty, the latest tag is the sentinel
    made of the configured year, the parsed update (0.0 when the update
    text is invalid) and counter -1, and the tag returned is that year
    and update with counter 0. *)
Theorem empty_line_starts_at_zero (tagData : list string) (year : num)
  (update : string) :
  Up.getRelevantTags tagData year update = Normal [] ->
  Up.getLatestTag [] year update
  = Normal (Some {| year := year; up := Up.sentinelKey update;
                    count := Int (-1) |})
  /\ Up.resolve tagData year update
     = Normal (Up.formatTag {| year := year; up := Up.sentinelKey update;
                               count := Int 0 |})
  /\ Up.formatTag {| year := year; up := Up.sentinelKey update;
                     count := Int 0 |}
     = ("v" ++ toString year ++ "."
          ++ ("up" ++ toString (maj (Up.sentinelKey update)) ++ "."
                ++ toString (min (Up.sentinelKey update)))
          ++ ".0")%string.
Proof.
  intros H. split; [apply getLatestTag_empty|].
  split; [now apply resolve_empty_line | reflexivity].
Qed.

Lemma empty_line_starts_at_zero_witness :
  Up.getLatestTag [] (Int 2025) "up3.2"
  = Normal (Some {| year := Int 2025; up := Up.sentinelKey "up3.2";
                    count := Int (-1) |})
  /\ Up.resolve [] (Int 2025) "up3.2" = Normal "v2025.up3.2.0".
Proof.
  destruct (empty_line_starts_at_zero [] (Int 2025) "up3.2" eq_refl)
    as (H1 & H2 & _).
  split; [exact H1 | exact H2].
Defined.

(** In part_001 resolution never fails, and it returns the same tag on a
    list as on that list without the names [parseTag] rejects (which, in
    that revision, is every name). *)
Lemma rejected_tags_are_dropped (tagData : list string) (year : num)
  (update : string) :
  (exists newTag, Up.resolve tagData year update = Normal newTag)
  /\ Up.resolve tagData year update
     = Up.resolve (filter Up.accepted tagData) year update.
Proof.
  split; [apply resolve_total | apply resolve_drops_rejected].
Qed.

(** The same in the previous revision, whose parser accepts tags. *)
Lemma Sp_rejected_tags_are_dropped (tagData : list string) (year : num)
  (update : string) :
  (exists newTag, Sp.resolve tagData year update = Normal newTag)
  /\ Sp.resolve tagData year update
     = Sp.resolve (filter Sp.accepted tagData) year update.
Proof.
  split; [apply resolve_total | apply resolve_drops_rejected].
Qed.

Example Sp_rejected_tags_example :
  filter Sp.accepted ["not-a-tag"; "v2021.sp1.4"; "v2021.sp"; "v19999.sp1.0"]
  = ["v2021.sp1.4"]
  /\ Sp.resolve ["not-a-tag"; "v2021.sp1.4"; "v2021.sp"; "v19999.sp1.0"]
       (Int 2021) "sp1" = Normal "v2021.sp1.5".
Proof. split; reflexivity. Qed.

(** C4 fails on part_001: on the example of the specification every tag
    is rejected ([tag.uplit] at line 52), the release line is empty and
    the new tag is [v2024.up1.0.0], not [v2024.up1.2].  The previous
    revision, on the same example under its marker, returns the tag with
    the counter incremented and the zero minor left out. *)
Theorem example_resolves_elsewhere :
  map Up.parseTag ["v2024.up1.0"; "v2024.up1.1"; "v2024.up2.0"; "garbage"]
  = [Normal None; Normal None; Normal None; Normal None]
  /\ Up.getRelevantTags
       ["v2024.up1.0"; "v2024.up1.1"; "v2024.up2.0"; "garbage"]
       (Int 2024) "up1" = Normal []
  /\ Up.resolve ["v2024.up1.0"; "v2024.up1.1"; "v2024.up2.0"; "garbage"]
       (Int 2024) "up1" = Normal "v2024.up1.0.0"
  /\ Up.resolve ["v2024.up1.0"; "v2024.up1.1"; "v2024.up2.0"; "garbage"]
       (Int 2024) "up1" <> Normal "v2024.up1.2"
  /\ Sp.resolve ["v2024.sp1.0"; "v2024.sp1.1"; "v2024.sp2.0"; "garbage"]
       (Int 2024) "sp1" = Normal "v2024.sp1.2".
Proof.
  split; [reflexivity|]. split; [reflexivity|]. split; [reflexivity|].
  split; [discriminate | reflexivity].
Qed.

(** The versions the three well-formed names of the example stand for,
    as the parser of [index.js] reads them under its marker. *)
Example example_versions :
  map (Rev.parsed "sp" "split")
    ["v2024.sp1.0"; "v2024.sp1.1"; "v2024.sp2.0"; "garbage"]
  = [Some {| year := Int 2024; up := {| maj := Int 1; min := Int 0 |};
             count := Int 0 |};
     Some {| year := Int 2024; up := {| maj := Int 1; min := Int 0 |};
             count := Int 1 |};
     Some {| year := Int 2024; up := {| maj := Int 2; min := Int 0 |};
             count := Int 0 |};
     None].
Proof. reflexivity. Qed.

(** ** The comparator *)

Lemma compare_lexCompare (a b : Version) :
  compare (toTag a) (toTag b) = Some (lexCompare a b).
Proof.
  unfold compare, compareTags, lexCompare, strictNe, strictEq, sub, toTag.
  cbn [year up maj min count].
  destruct (Z.eqb_spec (vyear a) (vyear b)) as [Ey|Ey]; cbn [negb].
  2:{ rewrite <- Z.compare_sub.
      destruct (Z.compare_spec (vyear a) (vyear b)); easy. }
  rewrite Ey, Z.compare_refl.
  destruct (Z.eqb_spec (vmajor a) (vmajor b)) as [Ej|Ej]; cbn [negb].
  2:{ rewrite <- Z.compare_sub.
      destruct (Z.compare_spec (vmajor a) (vmajor b)); easy. }
  rewrite Ej, Z.compare_refl.
  destruct (Z.eqb_spec (vminor a) (vminor b)) as [En|En]; cbn [negb].
  2:{ rewrite <- Z.compare_sub.
      destruct (Z.compare_spec (vminor a) (vminor b)); easy. }
  rewrite En, Z.compare_refl.
  destruct (Z.eqb_spec (vcounter a) (vcounter b)) as [Ec|Ec]; cbn [negb].
  2:{ now rewrite <- Z.compare_sub. }
  now rewrite Ec, !Z.compare_refl.
Qed.

Lemma lexCompare_antisym (a b : Version) :
  lexCompare b a = CompOpp (lexCompare a b).
Proof.
  unfold lexCompare.
  rewrite (Z.compare_antisym (vyear a)), (Z.compare_antisym (vmajor a)),
    (Z.compare_antisym (vminor a)), (Z.compare_antisym (vcounter a)).
  destruct (vyear a ?= vyear b), (vmajor a ?= vmajor b),
    (vminor a ?= vminor b); reflexivity.
Qed.

Lemma lexCompare_Lt (a b : Version) :
  lexCompare a b = Lt <->
  vyear a < vyear b
  \/ vyear a = vyear b
     /\ (vmajor a < vmajor b
         \/ vmajor a = vmajor b
            /\ (vminor a < vminor b
                \/ vminor a = vminor b /\ vcounter a < vcounter b)).
Proof.
  unfold lexCompare.
  destruct (Z.compare_spec (vyear a) (vyear b));
    destruct (Z.compare_spec (vmajor a) (vmajor b));
    destruct (Z.compare_spec (vminor a) (vminor b));
    destruct (Z.compare_spec (vcounter a) (vcounter b));
    split; intros; try discriminate; try reflexivity; lia.
Qed.

Lemma lexCompare_Eq (a b : Version) : lexCompare a b = Eq <-> a = b.
Proof.
  split.
  - unfold lexCompare.
    destruct (Z.compare_spec (vyear a) (vyear b)); try discriminate.
    destruct (Z.compare_spec (vmajor a) (vmajor b)); try discriminate.
    destruct (Z.compare_spec (vminor a) (vminor b)); try discriminate.
    destruct (Z.compare_spec (vcounter a) (vcounter b)); try discriminate.
    intros _. destruct a, b. cbn in *. congruence.
  - intros ->. unfold lexCompare. now rewrite !Z.compare_refl.
Qed.

Lemma lexCompare_trans (a b c : Version) :
  lexCompare a b = Lt -> lexCompare b c = Lt -> lexCompare a c = Lt.
Proof.
  intros H1 H2. apply lexCompare_Lt in H1, H2. apply lexCompare_Lt. lia.
Qed.

(** C5.  On versions, [compareTags] decides by year, then update major,
    then update minor, then counter; swapping the arguments swaps less
    and greater; less is transitive; and the result is equal exactly
    when the four fields are equal.  So it is a strict total order. *)
Theorem compareTags_strict_total_order (a b c : Version) :
  compare (toTag a) (toTag b) = Some (lexCompare a b)
  /\ compare (toTag b) (toTag a)
     = option_map CompOpp (compare (toTag a) (toTag b))
  /\ (compare (toTag a) (toTag b) = Some Lt ->
      compare (toTag b) (toTag c) = Some Lt ->
      compare (toTag a) (toTag c) = Some Lt)
  /\ (compare (toTag a) (toTag b) = Some Eq <-> a = b).
Proof.
  rewrite !compare_lexCompare. cbn [option_map].
  split; [reflexivity|].
  split; [now rewrite lexCompare_antisym|].
  split.
  - intros [= H1] [= H2]. f_equal. now apply lexCompare_trans with b.
  - rewrite <- lexCompare_Eq. split; [now intros [= ->] | now intros ->].
Qed.

Lemma compareTags_strict_total_order_witness :
  compare (toTag {| vyear := 2024; vmajor := 1; vminor := 0; vcounter := 7 |})
          (toTag {| vyear := 2025; vmajor := 0; vminor := 0; vcounter := 0 |})
  = Some Lt.
Proof.
  pose (a := {| vyear := 2024; vmajor := 1; vminor := 0; vcounter := 7 |}).
  pose (b := {| vyear := 2024; vmajor := 1; vminor := 2; vcounter := 0 |}).
  pose (c := {| vyear := 2025; vmajor := 0; vminor := 0; vcounter := 0 |}).
  destruct (compareTags_strict_total_order a b c) as (_ & _ & H & _).
  apply H; reflexivity.
Defined.

(** ** Sorting with the comparator *)

Section SortMap.

Context {A B : Type} (f : B -> A) (comparefn : A -> A -> num).

Let pulled (x y : B) : num := comparefn (f x) (f y).

Lemma insert_map (x : B) (l : list B) :
  insert comparefn (f x) (map f l) = map f (insert pulled x l).
Proof.
  induction l as [|y l IH]; [reflexivity|].
  cbn [map insert]. unfold sortCompare, pulled.
  destruct (comparefn (f x) (f y)) as [|z]; cbn [map]; [reflexivity|].
  destruct (0 <? z); cbn [map]; [now rewrite IH | reflexivity].
Qed.

Lemma last_map (l : list B) (d : B) : last (map f l) (f d) = f (last l d).
Proof.
  induction l as [|x [|y l] IH]; [reflexivity|reflexivity|exact IH].
Qed.

Lemma sort_map (l : list B) :
  sort comparefn (map f l) = map f (sort pulled l).
Proof.
  induction l as [|x l IH]; [reflexivity|].
  cbn [map sort]. now rewrite IH, insert_map.
Qed.

End SortMap.

Section SortedLists.

Context {A : Type} (R : A -> A -> Prop).

Lemma StronglySorted_filter (p : A -> bool) (l : list A) :
  StronglySorted R l -> StronglySorted R (filter p l).
Proof.
  induction 1 as [|x l Hs IH Hx]; cbn [filter]; [constructor|].
  destruct (p x); [|exact IH].
  constructor; [exact IH|].
  rewrite Forall_forall in *. intros y Hy.
  apply filter_In in Hy as [Hy _]. now apply Hx.
Qed.

Lemma last_In (l : list A) (d : A) : l <> [] -> In (last l d) l.
Proof.
  induction l as [|x [|y l] IH]; intros H; [easy|now left|].
  right. apply IH. discriminate.
Qed.

Lemma StronglySorted_last (l : list A) (d : A) :
  (forall x, R x x) ->
  StronglySorted R l -> forall x, In x l -> R x (last l d).
Proof.
  intros Hrefl. induction 1 as [|x l Hs IH Hx]; intros y Hy; [easy|].
  destruct l as [|z l].
  - destruct Hy as [<-|[]]. apply Hrefl.
  - change (last (x :: z :: l) d) with (last (z :: l) d).
    destruct Hy as [<-|Hy]; [|now apply IH].
    rewrite Forall_forall in Hx. apply Hx. apply last_In. discriminate.
Qed.

End SortedLists.

Section VersionOrder.

Lemma sortCompare_Gt (x y : Version) :
  (0 <? sortCompare compareVersions x y) = true <-> lexCompare x y = Gt.
Proof.
  pose proof (compare_lexCompare x y) as H.
  unfold compare in H. unfold sortCompare, compareVersions.
  destruct (compareTags (toTag x) (toTag y)) as [|z]; [discriminate|].
  injection H as <-. rewrite Z.ltb_lt, Z.compare_gt_iff. reflexivity.
Qed.

Lemma notAfter_iff (a b : Version) : notAfter a b <-> lexCompare b a <> Lt.
Proof.
  unfold notAfter. rewrite (lexCompare_antisym a b).
  destruct (lexCompare a b); cbn; split; congruence.
Qed.

Lemma notAfter_refl (a : Version) : notAfter a a.
Proof.
  unfold notAfter. now rewrite (proj2 (lexCompare_Eq a a) eq_refl).
Qed.

Lemma notAfter_trans (a b c : Version) :
  notAfter a b -> notAfter b c -> notAfter a c.
Proof.
  rewrite !notAfter_iff, !lexCompare_Lt. lia.
Qed.

Lemma notAfter_total (a b : Version) : lexCompare a b = Gt -> notAfter b a.
Proof.
  intros H. unfold notAfter. rewrite lexCompare_antisym, H. discriminate.
Qed.

Lemma insert_Sorted (x : Version) (l : list Version) :
  Sorted notAfter l -> Sorted notAfter (insert compareVersions x l).
Proof.
  induction 1 as [|y l Hs IH Hy]; cbn [insert]; [repeat constructor|].
  destruct (0 <? sortCompare compareVersions x y) eqn:E.
  - apply sortCompare_Gt in E.
    constructor; [exact IH|].
    destruct l as [|z l]; cbn [insert].
    + constructor. now apply notAfter_total.
    + destruct (0 <? sortCompare compareVersions x z).
      * constructor. now inversion Hy.
      * constructor. now apply notAfter_total.
  - constructor; [now constructor|]. constructor.
    unfold notAfter. intros G. apply sortCompare_Gt in G. congruence.
Qed.

Lemma sort_StronglySorted (l : list Version) :
  StronglySorted notAfter (sort compareVersions l).
Proof.
  apply Sorted_StronglySorted.
  - intros a b c. apply notAfter_trans.
  - induction l as [|x l IH]; cbn [sort]; [constructor|].
    now apply insert_Sorted.
Qed.

Lemma dropNull_versions (parsed : list (option Version)) :
  exists vs, Rev.dropNull (map (option_map toTag) parsed) = map toTag vs.
Proof.
  induction parsed as [|[v|] l (vs & IH)].
  - now exists [].
  - exists (v :: vs). cbn. now rewrite IH.
  - exists vs. exact IH.
Qed.

Lemma toTag_inj (a b : Version) : toTag a = toTag b -> a = b.
Proof. destruct a, b. unfold toTag. cbn. congruence. Qed.

Lemma strictEq_Int (x : Z) (n : num) : strictEq (Int x) n = true -> n = Int x.
Proof.
  destruct n as [|y]; cbn; [discriminate|].
  intros H. apply Z.eqb_eq in H. now subst.
Qed.

Lemma inLine_fields (year : num) (key : Update) (v : Version) :
  Rev.inLine year key (toTag v) = true ->
  parseInt (toString year) = Int (vyear v)
  /\ key = {| maj := Int (vmajor v); min := Int (vminor v) |}.
Proof.
  unfold Rev.inLine. cbn [toTag Model.year up maj min].
  rewrite !andb_true_iff. intros [[Hy Hj] Hn].
  apply strictEq_Int in Hy, Hj, Hn. destruct key as [j n]. cbn in *.
  now subst.
Qed.

(** The release line of a list of parsed versions is the tags of a list
    of versions, sorted, that all match the year and the key. *)
Lemma relevantTags_versions (parsed : list (option Version)) (year : num)
  (key : Update) :
  exists lineV,
    Rev.relevantTags (map (option_map toTag) parsed) year key
    = map toTag lineV
    /\ StronglySorted notAfter lineV
    /\ (forall v, In v lineV ->
        parseInt (toString year) = Int (vyear v)
        /\ key = {| maj := Int (vmajor v); min := Int (vminor v) |}).
Proof.
  destruct (dropNull_versions parsed) as (vs & Hvs).
  exists (filter (fun v => Rev.inLine year key (toTag v))
            (sort compareVersions vs)).
  split; [|split].
  - unfold Rev.relevantTags, Rev.validTags.
    now rewrite Hvs, sort_map, filter_map_swap.
  - apply StronglySorted_filter, sort_StronglySorted.
  - intros v Hv. apply filter_In in Hv as [_ Hv].
    now apply inLine_fields.
Qed.

Lemma same_line_counter (a b : Version) :
  vyear a = vyear b -> vmajor a = vmajor b -> vminor a = vminor b ->
  notAfter a b -> vcounter a <= vcounter b.
Proof.
  intros Hy Hj Hn H. apply notAfter_iff in H. rewrite lexCompare_Lt in H. lia.
Qed.

End VersionOrder.

(** ** The first revision, for comparison

    The release line of the first revision is filtered from the unsorted
    tags, nulls included, and its first element is taken as the latest.
    The later revisions filter [validTags] and take the last element. *)

Lemma Sp0_rejected_tag_throws (tags : list (option Tag)) (year : num)
  (sp : Update) :
  In None tags -> Sp0.relevantTags tags year sp = Throw TypeError.
Proof.
  unfold Sp0.relevantTags.
  induction tags as [|tag tags IH]; intros H; [easy|].
  cbn [Sp0.filterM]. destruct H as [->|H]; [reflexivity|].
  rewrite (IH H). destruct tag as [t|]; reflexivity.
Qed.

(** C6 fails on the first revision of [index.js] (lines 143-151): of the
    tags of the specification's example [parseTag] rejects three, line
    148 filters the parsed list with those nulls in it, and reading
    [tag.year] of the first one throws; without the rejected names the
    same filter returns the line.  The second revision filters
    [validTags] and returns the same tag on both lists. *)
Theorem first_revision_stops_at_a_rejected_tag :
  let t := {| year := Int 2021; up := {| maj := Int 1; min := Int 0 |};
              count := Int 4 |} in
  map Sp.parseTag ["not-a-tag"; "v2021.sp1.4"; "v2021.sp"; "v19999.sp1.0"]
  = [Normal None; Normal (Some t); Normal None; Normal None]
  /\ Sp0.relevantTags [None; Some t; None; None] (Int 2021)
       {| maj := Int 1; min := Int 0 |} = Throw TypeError
  /\ Sp0.relevantTags [Some t] (Int 2021) {| maj := Int 1; min := Int 0 |}
     = Normal [Some t]
  /\ Sp.resolve ["not-a-tag"; "v2021.sp1.4"; "v2021.sp"; "v19999.sp1.0"]
       (Int 2021) "sp1" = Normal "v2021.sp1.5"
  /\ Sp.resolve ["v2021.sp1.4"] (Int 2021) "sp1" = Normal "v2021.sp1.5".
Proof.
  cbv zeta. split; [reflexivity|]. split.
  - apply Sp0_rejected_tag_throws. now left.
  - split; [reflexivity|]. split; reflexivity.
Qed.

Example Sp0_takes_the_first :
  let t0 := {| year := Int 2024; up := {| maj := Int 1; min := Int 0 |};
               count := Int 0 |} in
  let t1 := {| year := Int 2024; up := {| maj := Int 1; min := Int 0 |};
               count := Int 1 |} in
  Sp0.relevantTags [Some t0; Some t1] (Int 2024)
    {| maj := Int 1; min := Int 0 |}
  = Normal [Some t0; Some t1]
  /\ Sp0.getLatestTag [Some t0; Some t1] (Int 2024) "sp1" = Normal (Some t0)
  /\ Sp0.getNewTag (Some t0) = Normal "v2024.1.1".
Proof. cbv zeta. repeat split. Qed.

(** ** Printing a number and reading it back *)

Section PrintParse.

(** One step of [digits] on a literal character. *)
Ltac digit_step :=
  cbn [digits];
  match goal with
  | |- context [digitValue ?c] =>
      let v := eval vm_compute in (digitValue c) in
      change (digitValue c) with v
  end;
  cbv beta iota;
  match goal with
  | |- context [?a <? 10] => change (a <? 10) with true
  end;
  cbv beta iota.

Lemma digits_uint_acc (d : uint) (acc : positive) :
  digits 10 (NilEmpty.string_of_uint d) (Z.pos acc)
  = Z.pos (Pos.of_uint_acc d acc).
Proof.
  revert acc.
  induction d; intros acc; cbn [NilEmpty.string_of_uint Pos.of_uint_acc];
    [reflexivity|..]; digit_step; rewrite <- IHd; f_equal; lia.
Qed.

Lemma digits_uint (d : uint) :
  digits 10 (NilEmpty.string_of_uint d) 0 = Z.of_N (Pos.of_uint d).
Proof.
  induction d; cbn [NilEmpty.string_of_uint Pos.of_uint];
    [reflexivity|..]; digit_step;
    [exact IHd|..]; cbn [Z.of_N]; rewrite <- digits_uint_acc; reflexivity.
Qed.

Lemma parseInt_uint (d : uint) :
  d <> Nil ->
  parseInt (NilEmpty.string_of_uint d)
  = Int (digits 10 (NilEmpty.string_of_uint d) 0)
  /\ parseInt (String "-" (NilEmpty.string_of_uint d))
     = Int (- digits 10 (NilEmpty.string_of_uint d) 0).
Proof.
  intros H. destruct d as [|l|l|l|l|l|l|l|l|l|l]; [congruence|..];
    destruct l; split; cbn [NilEmpty.string_of_uint];
    match goal with
    | |- parseInt (String "-" ?s) = Int (- ?k) =>
        change (Int (-1 * digits 10 s 0) = Int (- k))
    | |- parseInt ?s = Int ?k =>
        change (Int (1 * digits 10 s 0) = Int k)
    end; f_equal; lia.
Qed.

Lemma parseInt_toString (z : Z) : parseInt (toString (Int z)) = Int z.
Proof.
  unfold toString. destruct z as [|p|p]; [reflexivity|..];
    cbn [Z.to_int NilZero.string_of_int]; unfold NilZero.string_of_uint;
    pose proof (Unsigned.to_uint_nonnil p) as Hn;
    destruct (parseInt_uint _ Hn) as [Hp Hm];
    destruct (Pos.to_uint p) eqn:E; try congruence;
    rewrite <- E in *; first [rewrite Hp | rewrite Hm];
    rewrite digits_uint, Unsigned.of_to; reflexivity.
Qed.

Lemma parseInt_toString_NaN : parseInt (toString NaN) = NaN.
Proof. reflexivity. Qed.

End PrintParse.

(** ** The latest tag of a release line *)

(** The last element of a non-empty release line, in any revision that
    shares [getLatestTag]. *)
Lemma line_latest (marker : string) (parsed : list (option Version))
  (year : num) (key : Update) (update : string) :
  let line := Rev.relevantTags (map (option_map toTag) parsed) year key in
  line <> [] ->
  exists latest : Version,
    nth_error line (List.length line - 1) = Some (toTag latest)
    /\ Rev.getLatestTag marker line year update = Normal (Some (toTag latest))
    /\ (forall v, In (toTag v) line -> vcounter v <= vcounter latest)
    /\ year = Int (vyear latest)
    /\ key = up (toTag latest).
Proof.
  intros line Hne. subst line.
  destruct (relevantTags_versions parsed year key)
    as (lineV & E & Hsorted & Hfields).
  rewrite E in *. clear E.
  destruct lineV as [|d lineV']; [easy|].
  set (lineV := d :: lineV') in *.
  assert (HneV : lineV <> []) by discriminate.
  pose (latest := last lineV d).
  assert (Hin : In latest lineV) by now apply last_In.
  assert (Hlast : last (map toTag lineV) (toTag d) = toTag latest)
    by apply last_map.
  exists latest.
  split; [|split; [|split; [|split]]].
  - rewrite (nth_error_last _ (toTag d)) by exact Hne. now rewrite Hlast.
  - rewrite (getLatestTag_nonempty _ _ _ _ (toTag d)) by exact Hne.
    now rewrite Hlast.
  - intros v Hv. apply in_map_iff in Hv as (v' & E & Hv').
    apply toTag_inj in E. subst v'.
    destruct (Hfields v Hv') as [Hy Hk].
    destruct (Hfields latest Hin) as [Hy' Hk'].
    rewrite Hy in Hy'. rewrite Hk in Hk'.
    injection Hy' as Ey. injection Hk' as Ej En.
    apply same_line_counter; try assumption.
    now apply (StronglySorted_last notAfter lineV d notAfter_refl Hsorted).
  - destruct (Hfields latest Hin) as [Hy _].
    destruct year as [|y]; [discriminate|].
    now rewrite parseInt_toString in Hy.
  - now destruct (Hfields latest Hin) as [_ Hk].
Qed.

(** What [getLatestTag] and [getNewTag] of part_001 do once the tags are
    parsed (part_001:139-177).  Take any parsed versions (and rejected
    names), a year and an update key, and let [line] be the release line
    [getRelevantTags] keeps: the valid tags sorted with the comparator,
    filtered to the year and the key.  When [line] is not empty,
    [getLatestTag] returns its last element; that element has the
    greatest counter of the line, the configured year and the key; and
    [getNewTag] formats the same year and update with that counter
    plus 1. *)
Lemma latest_is_last_and_incremented (parsed : list (option Version))
  (year : num) (key : Update) (update : string) :
  let line := Up.relevantTags (map (option_map toTag) parsed) year key in
  line <> [] ->
  exists latest : Version,
    nth_error line (List.length line - 1) = Some (toTag latest)
    /\ Up.getLatestTag line year update = Normal (Some (toTag latest))
    /\ (forall v, In (toTag v) line -> vcounter v <= vcounter latest)
    /\ year = Int (vyear latest)
    /\ key = up (toTag latest)
    /\ Up.getNewTag (Some (toTag latest))
       = Normal (Up.formatTag (toTag (successor latest)))
    /\ (latestTag <- Up.getLatestTag line year update ;;
        Up.getNewTag latestTag)
       = Normal (Up.formatTag (toTag (successor latest))).
Proof.
  intros line Hne.
  destruct (line_latest "up" parsed year key update Hne)
    as (latest & H1 & H2 & H3 & H4 & H5).
  exists latest. repeat (split; [assumption|]).
  split; [reflexivity|].
  subst line. unfold Up.getLatestTag, Up.relevantTags.
  rewrite H2. reflexivity.
Qed.

Lemma latest_is_last_and_incremented_example :
  let parsed :=
    [Some {| vyear := 2024; vmajor := 1; vminor := 0; vcounter := 1 |};
     Some {| vyear := 2024; vmajor := 2; vminor := 0; vcounter := 0 |};
     None;
     Some {| vyear := 2024; vmajor := 1; vminor := 0; vcounter := 0 |}] in
  let key := {| maj := Int 1; min := Int 0 |} in
  let line := Up.relevantTags (map (option_map toTag) parsed) (Int 2024) key in
  line <> []
  /\ exists latest : Version,
       nth_error line (List.length line - 1) = Some (toTag latest)
       /\ Up.getLatestTag line (Int 2024) "up1" = Normal (Some (toTag latest))
       /\ (forall v, In (toTag v) line -> vcounter v <= vcounter latest)
       /\ Int 2024 = Int (vyear latest)
       /\ key = up (toTag latest)
       /\ Up.getNewTag (Some (toTag latest))
          = Normal (Up.formatTag (toTag (successor latest)))
       /\ (latestTag <- Up.getLatestTag line (Int 2024) "up1" ;;
           Up.getNewTag latestTag)
          = Normal (Up.formatTag (toTag (successor latest))).
Proof.
  intros parsed key line.
  assert (Hne : line <> []) by (cbn; discriminate).
  split; [exact Hne|].
  exact (latest_is_last_and_incremented parsed (Int 2024) key "up1" Hne).
Defined.

Example latest_of_the_example :
  (latestTag <- Up.getLatestTag
                  (Up.relevantTags
                     [Some {| year := Int 2024;
                              up := {| maj := Int 1; min := Int 0 |};
                              count := Int 1 |};
                      None;
                      Some {| year := Int 2024;
                              up := {| maj := Int 1; min := Int 0 |};
                              count := Int 0 |}]
                     (Int 2024) {| maj := Int 1; min := Int 0 |})
                  (Int 2024) "up1" ;;
   Up.getNewTag latestTag) = Normal "v2024.up1.0.2".
Proof. reflexivity. Qed.

(** ** The round trip in the previous revision

    With [tag.split(".")] at its line 278, [index.js] parses back what
    it formats, for every version whose year and counter pass the range
    tests. *)

Section RoundTrip.

Lemma uint_no_dot (d : uint) :
  hasChar "." (NilEmpty.string_of_uint d) = false.
Proof. induction d; cbn; assumption || reflexivity. Qed.

Lemma toString_no_dot (z : Z) : hasChar "." (toString (Int z)) = false.
Proof.
  unfold toString. destruct z as [|p|p]; [reflexivity|..];
    cbn [Z.to_int NilZero.string_of_int]; unfold NilZero.string_of_uint;
    destruct (Pos.to_uint p) eqn:E; try reflexivity;
    rewrite <- E; cbn [hasChar]; apply uint_no_dot.
Qed.

Lemma Sp_parseServicePack_one (a : string) :
  hasChar "." a = false ->
  Sp.parseServicePack ("sp" ++ a)
  = Normal (Some {| maj := parseInt a; min := Int 0 |}).
Proof.
  intros Ha. unfold Sp.parseServicePack, Rev.parseUpdate.
  change (startsWith ("sp" ++ a) "sp") with true. cbn [negb].
  rewrite split_no_sep by exact Ha.
  cbn [nth_error member bind List.length Nat.eqb].
  change ("sp" ++ a)%string with (String "s" (String "p" a)).
  now rewrite substr_drop2.
Qed.

Lemma Sp_parseServicePack_two (a b : string) :
  hasChar "." a = false ->
  hasChar "." b = false ->
  Sp.parseServicePack ("sp" ++ a ++ "." ++ b)
  = Normal (Some {| maj := parseInt a; min := parseInt b |}).
Proof.
  intros Ha Hb. unfold Sp.parseServicePack, Rev.parseUpdate.
  change (startsWith ("sp" ++ a ++ "." ++ b) "sp") with true. cbn [negb].
  change ("sp" ++ a ++ "." ++ b)%string
    with (("sp" ++ a) ++ String "." b)%string.
  rewrite split_app_sep by exact Ha. rewrite split_no_sep by exact Hb.
  cbn [nth_error member bind List.length Nat.eqb strOf].
  change ("sp" ++ a)%string with (String "s" (String "p" a)).
  now rewrite substr_drop2.
Qed.

(** What C10 says of [parseUpdate] holds of [parseServicePack] too. *)
Lemma Sp_parseServicePack_ignores_extra_segments (a b c : string) :
  hasChar "." a = false ->
  hasChar "." b = false ->
  Sp.parseServicePack ("sp" ++ a ++ "." ++ b ++ "." ++ c)
  = Sp.parseServicePack ("sp" ++ a ++ "." ++ b).
Proof.
  intros Ha Hb. rewrite (Sp_parseServicePack_two a b Ha Hb).
  unfold Sp.parseServicePack, Rev.parseUpdate.
  change (startsWith ("sp" ++ a ++ "." ++ b ++ "." ++ c) "sp") with true.
  cbn [negb].
  change ("sp" ++ a ++ "." ++ b ++ "." ++ c)%string
    with (("sp" ++ a) ++ String "." (b ++ String "." c))%string.
  rewrite split_app_sep by exact Ha. rewrite split_app_sep by exact Hb.
  cbn [nth_error member bind List.length Nat.eqb strOf].
  change ("sp" ++ a)%string with (String "s" (String "p" a)).
  now rewrite substr_drop2.
Qed.

Lemma Sp_parseTag_three (y j c : string) :
  hasChar "." y = false -> hasChar "." j = false -> hasChar "." c = false ->
  lt (parseInt y) (Int 2000) = false ->
  gt (parseInt y) (Int 3000) = false ->
  lt (parseInt c) (Int 0) = false ->
  Sp.parseTag ("v" ++ y ++ "." ++ ("sp" ++ j) ++ "." ++ c)
  = Normal (Some {| year := parseInt y;
                    up := {| maj := parseInt j; min := Int 0 |};
                    count := parseInt c |}).
Proof.
  intros Hy Hj Hc Hlo Hhi Hneg. unfold Sp.parseTag, Rev.parseTag.
  change (String.length ("v" ++ y ++ "." ++ ("sp" ++ j) ++ "." ++ c) =? 0)%nat
    with false.
  change (startsWith ("v" ++ y ++ "." ++ ("sp" ++ j) ++ "." ++ c) "v")
    with true.
  cbn [negb]. unfold invoke. cbn [StringPrototype String.eqb Ascii.eqb
    Bool.eqb]. cbv beta iota.
  change ("v" ++ y ++ "." ++ ("sp" ++ j) ++ "." ++ c)%string
    with (("v" ++ y) ++ String "." (("sp" ++ j) ++ String "." c))%string.
  rewrite split_app_sep by exact Hy.
  rewrite split_app_sep by exact Hj.
  rewrite split_no_sep by exact Hc.
  cbn [bind List.length Nat.eqb negb andb nth_error member Nat.sub strOf].
  change ("v" ++ y)%string with (String "v" y).
  rewrite substr_drop1, Hlo, Hhi. cbn [orb].
  fold Sp.parseServicePack. rewrite Sp_parseServicePack_one by exact Hj.
  cbn [bind]. rewrite Hneg. reflexivity.
Qed.

Lemma Sp_parseTag_four (y j n c : string) :
  hasChar "." y = false -> hasChar "." j = false ->
  hasChar "." n = false -> hasChar "." c = false ->
  lt (parseInt y) (Int 2000) = false ->
  gt (parseInt y) (Int 3000) = false ->
  lt (parseInt c) (Int 0) = false ->
  Sp.parseTag ("v" ++ y ++ "." ++ ("sp" ++ j ++ "." ++ n) ++ "." ++ c)
  = Normal (Some {| year := parseInt y;
                    up := {| maj := parseInt j; min := parseInt n |};
                    count := parseInt c |}).
Proof.
  intros Hy Hj Hn Hc Hlo Hhi Hneg. unfold Sp.parseTag, Rev.parseTag.
  change (String.length
            ("v" ++ y ++ "." ++ ("sp" ++ j ++ "." ++ n) ++ "." ++ c) =? 0)%nat
    with false.
  change (startsWith
            ("v" ++ y ++ "." ++ ("sp" ++ j ++ "." ++ n) ++ "." ++ c) "v")
    with true.
  cbn [negb]. unfold invoke. cbn [StringPrototype String.eqb Ascii.eqb
    Bool.eqb]. cbv beta iota.
  replace ("v" ++ y ++ "." ++ ("sp" ++ j ++ "." ++ n) ++ "." ++ c)%string
    with (("v" ++ y)
            ++ String "." (("sp" ++ j)
                             ++ String "." (n ++ String "." c)))%string.
  2:{ cbn [String.append]. do 4 f_equal.
      now rewrite append_assoc. }
  rewrite split_app_sep by exact Hy.
  rewrite split_app_sep by exact Hj.
  rewrite split_app_sep by exact Hn.
  rewrite split_no_sep by exact Hc.
  cbn [bind List.length Nat.eqb negb andb nth_error member Nat.sub strOf].
  change ("v" ++ y)%string with (String "v" y).
  rewrite substr_drop1, Hlo, Hhi. cbn [orb].
  fold Sp.parseServicePack.
  change (("sp" ++ j) ++ "." ++ n)%string with ("sp" ++ j ++ "." ++ n)%string.
  rewrite Sp_parseServicePack_two by assumption.
  cbn [bind]. rewrite Hneg. reflexivity.
Qed.

(** The round-trip law of C3, in [index.js]. *)
Lemma Sp_parse_format (v : Version) :
  2000 <= vyear v <= 3000 -> 0 <= vcounter v ->
  Sp.parseTag (Sp.formatTag (toTag v)) = Normal (Some (toTag v)).
Proof.
  intros Hy Hc. unfold Sp.formatTag, toTag. cbn [year up maj min count].
  pose proof (parseInt_toString (vyear v)) as Py.
  pose proof (parseInt_toString (vmajor v)) as Pj.
  pose proof (parseInt_toString (vminor v)) as Pn.
  pose proof (parseInt_toString (vcounter v)) as Pc.
  assert (Hlo : lt (parseInt (toString (Int (vyear v)))) (Int 2000) = false)
    by (rewrite Py; cbn; lia).
  assert (Hhi : gt (parseInt (toString (Int (vyear v)))) (Int 3000) = false)
    by (rewrite Py; cbn; lia).
  assert (Hneg : lt (parseInt (toString (Int (vcounter v)))) (Int 0) = false)
    by (rewrite Pc; cbn; lia).
  cbn [strictEq]. destruct (Z.eqb_spec (vminor v) 0) as [E|E].
  - rewrite Sp_parseTag_three; auto using toString_no_dot.
    now rewrite Py, Pj, Pc, E.
  - rewrite Sp_parseTag_four; auto using toString_no_dot.
    now rewrite Py, Pj, Pn, Pc.
Qed.

End RoundTrip.

(** ** The increment in the previous revision, from the tag names

    In [index.js] the tags do parse, so the statement of C1 can be read
    on the names: when every accepted name stands for a version and the
    release line is not empty, [resolve] returns the latest version of
    the line with its counter plus 1. *)
Lemma Sp_resolve_increments (tagData : list string)
  (parsed : list (option Version)) (year : num) (update : string)
  (key : Update) :
  map (Rev.parsed "sp" "split") tagData = map (option_map toTag) parsed ->
  Sp.parseServicePack update = Normal (Some key) ->
  let line := Rev.relevantTags (map (option_map toTag) parsed) year key in
  line <> [] ->
  exists latest : Version,
    nth_error line (List.length line - 1) = Some (toTag latest)
    /\ (forall v, In (toTag v) line -> vcounter v <= vcounter latest)
    /\ Sp.resolve tagData year update
       = Normal (Sp.formatTag (toTag (successor latest))).
Proof.
  intros Hparsed Hkey line Hne.
  destruct (line_latest "sp" parsed year key update Hne)
    as (latest & H1 & H2 & H3 & _ & _).
  exists latest. split; [exact H1|]. split; [exact H3|].
  unfold Sp.resolve, Rev.resolve.
  pose proof (getRelevantTags_unfold "sp" "split" tagData year update) as E.
  cbv zeta in E. rewrite E. unfold Sp.parseServicePack in Hkey.
  rewrite Hkey, Hparsed. cbn [bind]. subst line. rewrite H2. reflexivity.
Qed.

Example Sp_resolve_increments_example :
  Sp.resolve ["v2024.sp1.0"; "v2024.sp1.1"; "v2024.sp2.0"; "garbage"]
    (Int 2024) "sp1" = Normal "v2024.sp1.2".
Proof. reflexivity. Qed.

(** ** Listing the tags page by page *)

Section Listing.

Variable listTags : nat -> list string.

Lemma getAllTags_acc (fuel : nat) (fetchedTags : list string) (page : nat) :
  Act.getAllTags listTags fuel fetchedTags page
  = option_map (List.app fetchedTags) (Act.getAllTags listTags fuel [] page).
Proof.
  revert fetchedTags page.
  induction fuel as [|fuel IH]; intros fetched page; [reflexivity|].
  cbn [Act.getAllTags].
  destruct (List.length (listTags page) <? 100)%nat; [reflexivity|].
  rewrite (IH (fetched ++ listTags page)), (IH ([] ++ listTags page)).
  destruct (Act.getAllTags listTags fuel [] (page + 1)) as [l|];
    cbn; [|reflexivity].
  now rewrite app_assoc.
Qed.

(** A remote whose pages are all full keeps [getAllTags] asking. *)
Lemma getAllTags_full_pages (fuel : nat) (fetchedTags : list string)
  (page : nat) :
  (forall p, (page <= p)%nat -> (100 <= List.length (listTags p))%nat) ->
  Act.getAllTags listTags fuel fetchedTags page = None.
Proof.
  revert fetchedTags page.
  induction fuel as [|fuel IH]; intros fetched page H; [reflexivity|].
  cbn [Act.getAllTags].
  destruct (Nat.ltb_spec (List.length (listTags page)) 100) as [Hlt|_].
  - specialize (H page (Nat.le_refl _)). lia.
  - apply IH. intros p Hp. apply H. lia.
Qed.

End Listing.

Lemma pageOf_rest (all : list string) (page : nat) :
  (1 <= page)%nat ->
  pageOf all (page + 1)
  = firstn 100 (skipn 100 (skipn (100 * (page - 1)) all)).
Proof.
  intros H. unfold pageOf. rewrite skipn_skipn. do 2 f_equal. lia.
Qed.

Lemma getAllTags_paged (all : list string) (fuel : nat)
  (fetchedTags : list string) (page : nat) :
  (1 <= page)%nat ->
  Act.getAllTags (pageOf all) fuel fetchedTags page
  = if (fuel <=? List.length (skipn (100 * (page - 1)) all) / 100)%nat
    then None
    else Some (fetchedTags ++ skipn (100 * (page - 1)) all).
Proof.
  revert fetchedTags page.
  induction fuel as [|fuel IH]; intros fetched page Hp; [reflexivity|].
  cbn [Act.getAllTags].
  set (rest := skipn (100 * (page - 1)) all).
  assert (Hpage : pageOf all page = firstn 100 rest) by reflexivity.
  rewrite Hpage.
  assert (Hlen : List.length (firstn 100 rest)
                 = Nat.min 100 (List.length rest)) by apply length_firstn.
  destruct (Nat.ltb_spec (List.length (firstn 100 rest)) 100) as [Hlt|Hge].
  - assert (Hsmall : (List.length rest < 100)%nat) by lia.
    rewrite (Nat.div_small _ _ Hsmall). cbn [Nat.leb].
    now rewrite firstn_all2 by lia.
  - assert (Hbig : (100 <= List.length rest)%nat) by lia.
    rewrite IH by lia.
    replace (page + 1 - 1)%nat with (S (page - 1)) by lia.
    replace (100 * S (page - 1))%nat with (100 + 100 * (page - 1))%nat by lia.
    rewrite <- skipn_skipn. fold rest.
    assert (Hdiv : (List.length rest / 100
                    = S (List.length (skipn 100 rest) / 100))%nat).
    { rewrite length_skipn.
      replace (List.length rest)
        with ((List.length rest - 100) + 1 * 100)%nat at 1 by lia.
      rewrite Nat.div_add by lia. lia. }
    rewrite Hdiv. cbn [Nat.leb].
    destruct (fuel <=? List.length (skipn 100 rest) / 100)%nat;
      [reflexivity|].
    now rewrite <- app_assoc, firstn_skipn.
Qed.

(** ** The valid tags and the release line as sets *)

Section SortPermutation.

Context {A : Type} (comparefn : A -> A -> num).

Lemma insert_Permutation (x : A) (l : list A) :
  Permutation (insert comparefn x l) (x :: l).
Proof.
  induction l as [|y l IH]; cbn [insert]; [reflexivity|].
  destruct (0 <? sortCompare comparefn x y); [|reflexivity].
  rewrite IH. apply perm_swap.
Qed.

Lemma sort_Permutation (l : list A) : Permutation (sort comparefn l) l.
Proof.
  induction l as [|x l IH]; cbn [sort]; [reflexivity|].
  rewrite insert_Permutation. now constructor.
Qed.

End SortPermutation.

Lemma In_dropNull (t : Tag) (tags : list (option Tag)) :
  In t (Rev.dropNull tags) <-> In (Some t) tags.
Proof.
  induction tags as [|[u|] tags IH]; cbn [Rev.dropNull In].
  - tauto.
  - rewrite IH. split; intros [H|H]; auto; left; congruence.
  - rewrite IH. split; [auto|]. intros [H|H]; [discriminate|exact H].
Qed.

Lemma In_validTags (t : Tag) (tags : list (option Tag)) :
  In t (Rev.validTags tags) <-> In (Some t) tags.
Proof.
  unfold Rev.validTags. rewrite <- In_dropNull.
  split; apply Permutation_in;
    [|symmetry]; apply sort_Permutation.
Qed.

Lemma In_option_toTag (v : Version) (parsed : list (option Version)) :
  In (Some (toTag v)) (map (option_map toTag) parsed) <-> In (Some v) parsed.
Proof.
  rewrite in_map_iff. split.
  - intros ([w|] & E & H); [|discriminate].
    change (Some (toTag w) = Some (toTag v)) in E.
    assert (E' : toTag w = toTag v) by congruence.
    apply toTag_inj in E'. now subst.
  - intros H. exists (Some v). now split.
Qed.

Lemma inLine_iff (year : num) (key : Update) (v : Version) :
  Rev.inLine year key (toTag v) = true <->
  year = Int (vyear v)
  /\ key = {| maj := Int (vmajor v); min := Int (vminor v) |}.
Proof.
  split.
  - intros H. apply inLine_fields in H as [Hy Hk]. split; [|exact Hk].
    destruct year as [|y]; [discriminate|].
    now rewrite parseInt_toString in Hy.
  - intros [-> ->]. unfold Rev.inLine. cbn [toTag Model.year up maj min].
    rewrite parseInt_toString. cbn [strictEq]. now rewrite !Z.eqb_refl.
Qed.

Lemma In_relevantTags (parsed : list (option Version)) (year : num)
  (key : Update) (v : Version) :
  In (toTag v) (Rev.relevantTags (map (option_map toTag) parsed) year key)
  <-> In (Some v) parsed
      /\ year = Int (vyear v)
      /\ key = {| maj := Int (vmajor v); min := Int (vminor v) |}.
Proof.
  unfold Rev.relevantTags.
  now rewrite filter_In, In_validTags, In_option_toTag, inLine_iff.
Qed.

Lemma strictEq_NaN_r (n : num) : strictEq n NaN = false.
Proof. now destruct n. Qed.

Lemma relevantTags_NaN (tags : list (option Tag)) (year : num)
  (key : Update) :
  year = NaN \/ maj key = NaN \/ min key = NaN ->
  Rev.relevantTags tags year key = [].
Proof.
  intros H. unfold Rev.relevantTags.
  induction (Rev.validTags tags) as [|t l IH]; [reflexivity|].
  cbn [filter]. rewrite IH.
  replace (Rev.inLine year key t) with false; [reflexivity|].
  unfold Rev.inLine. destruct H as [->|[->| ->]].
  - cbn [toString]. change (parseInt "NaN") with NaN.
    now rewrite strictEq_NaN_r.
  - rewrite (strictEq_NaN_r (maj (up t))). now rewrite andb_false_r.
  - rewrite (strictEq_NaN_r (min (up t))). now rewrite andb_false_r.
Qed.

(** X3.  The valid tags are a rearrangement of the accepted tags (none
    lost, none added, duplicates kept); when the accepted tags are
    versions, they come out in ascending order of year, then update
    major, then update minor, then counter. *)
Theorem validTags_sorted_rearrangement (parsed : list (option Version))
  (tags : list (option Tag)) :
  Permutation (Rev.validTags tags) (Rev.dropNull tags)
  /\ exists vs,
       Rev.validTags (map (option_map toTag) parsed) = map toTag vs
       /\ StronglySorted notAfter vs.
Proof.
  split; [apply sort_Permutation|].
  destruct (dropNull_versions parsed) as (vs & Hvs).
  exists (sort compareVersions vs). split.
  - unfold Rev.validTags. now rewrite Hvs, sort_map.
  - apply sort_StronglySorted.
Qed.

(** X4.  The release line holds exactly the accepted versions of the
    configured year and update key: a version is in the line if, and
    only if, it was parsed from some tag, its year is the configured
    year and its update is the key, major and minor. *)
Theorem line_holds_exactly_the_matching_versions
  (parsed : list (option Version)) (year : num) (key : Update)
  (v : Version) :
  In (toTag v) (Up.relevantTags (map (option_map toTag) parsed) year key)
  <-> In (Some v) parsed
      /\ year = Int (vyear v)
      /\ key = {| maj := Int (vmajor v); min := Int (vminor v) |}.
Proof. apply In_relevantTags. Qed.

(** X5.  When the configured year is not a number, or the update text
    has a major or a minor that is not a number, the release line is
    empty whatever the tags: [===] never holds of [NaN]. *)
Theorem line_is_empty_for_NaN (tags : list (option Tag)) (year : num)
  (key : Update) :
  year = NaN \/ maj key = NaN \/ min key = NaN ->
  Up.relevantTags tags year key = [].
Proof. apply relevantTags_NaN. Qed.

Lemma line_is_empty_for_NaN_witness :
  Up.relevantTags
    [Some {| year := Int 2024; up := {| maj := NaN; min := Int 0 |};
             count := Int 3 |}]
    (Int 2024) {| maj := NaN; min := Int 0 |} = [].
Proof.
  apply (line_is_empty_for_NaN
           [Some {| year := Int 2024; up := {| maj := NaN; min := Int 0 |};
                    count := Int 3 |}]
           (Int 2024) {| maj := NaN; min := Int 0 |}).
  right. left. reflexivity.
Defined.

(** ** Distinct tags are written differently *)

Lemma parseInt_toString_num (n : num) : parseInt (toString n) = n.
Proof. destruct n as [|z]; [reflexivity | apply parseInt_toString]. Qed.

Lemma toString_inj (a b : num) : toString a = toString b -> a = b.
Proof.
  intros H. apply (f_equal parseInt) in H.
  now rewrite !parseInt_toString_num in H.
Qed.

Lemma toString_num_no_dot (n : num) : hasChar "." (toString n) = false.
Proof. destruct n as [|z]; [reflexivity | apply toString_no_dot]. Qed.

Lemma Up_formatTag_split (t : Tag) :
  split (Up.formatTag t) "."
  = [("v" ++ toString (year t))%string;
     ("up" ++ toString (maj (up t)))%string;
     toString (min (up t));
     toString (count t)].
Proof.
  unfold Up.formatTag. cbv zeta.
  replace ("v" ++ toString (year t) ++ "."
             ++ ("up" ++ toString (maj (up t)) ++ "."
                   ++ toString (min (up t)))
             ++ "." ++ toString (count t))%string
    with (("v" ++ toString (year t))
            ++ String "."
                 (("up" ++ toString (maj (up t)))
                    ++ String "."
                         (toString (min (up t))
                            ++ String "." (toString (count t)))))%string.
  2:{ cbn [String.append]. do 4 f_equal. now rewrite append_assoc. }
  rewrite split_app_sep by (cbn [String.append hasChar]; cbn;
                            apply toString_num_no_dot).
  rewrite split_app_sep by (cbn [String.append hasChar]; cbn;
                            apply toString_num_no_dot).
  rewrite split_app_sep by apply toString_num_no_dot.
  rewrite split_no_sep by apply toString_num_no_dot.
  reflexivity.
Qed.

Lemma Sp_formatTag_split (t : Tag) :
  split (Sp.formatTag t) "."
  = if strictEq (min (up t)) (Int 0)
    then [("v" ++ toString (year t))%string;
          ("sp" ++ toString (maj (up t)))%string;
          toString (count t)]
    else [("v" ++ toString (year t))%string;
          ("sp" ++ toString (maj (up t)))%string;
          toString (min (up t));
          toString (count t)].
Proof.
  unfold Sp.formatTag. cbv zeta.
  destruct (strictEq (min (up t)) (Int 0)).
  - change ("v" ++ toString (year t) ++ "."
              ++ ("sp" ++ toString (maj (up t)))
              ++ "." ++ toString (count t))%string
      with (("v" ++ toString (year t))
              ++ String "."
                   (("sp" ++ toString (maj (up t)))
                      ++ String "." (toString (count t))))%string.
    rewrite split_app_sep by (cbn [String.append hasChar]; cbn;
                              apply toString_num_no_dot).
    rewrite split_app_sep by (cbn [String.append hasChar]; cbn;
                              apply toString_num_no_dot).
    rewrite split_no_sep by apply toString_num_no_dot.
    reflexivity.
  - replace ("v" ++ toString (year t) ++ "."
               ++ ("sp" ++ toString (maj (up t)) ++ "."
                     ++ toString (min (up t)))
               ++ "." ++ toString (count t))%string
      with (("v" ++ toString (year t))
              ++ String "."
                   (("sp" ++ toString (maj (up t)))
                      ++ String "."
                           (toString (min (up t))
                              ++ String "." (toString (count t)))))%string.
    2:{ cbn [String.append]. do 4 f_equal. now rewrite append_assoc. }
    rewrite split_app_sep by (cbn [String.append hasChar]; cbn;
                              apply toString_num_no_dot).
    rewrite split_app_sep by (cbn [String.append hasChar]; cbn;
                              apply toString_num_no_dot).
    rewrite split_app_sep by apply toString_num_no_dot.
    rewrite split_no_sep by apply toString_num_no_dot.
    reflexivity.
Qed.

Lemma Tag_eq (a b : Tag) :
  toString (year a) = toString (year b) ->
  toString (maj (up a)) = toString (maj (up b)) ->
  toString (min (up a)) = toString (min (up b)) ->
  toString (count a) = toString (count b) ->
  a = b.
Proof.
  intros Hy Hj Hn Hc. apply toString_inj in Hy, Hj, Hn, Hc.
  destruct a as [ya [ja na] ca], b as [yb [jb nb] cb]. cbn in *.
  now subst.
Qed.

Lemma Up_formatTag_inj (a b : Tag) :
  Up.formatTag a = Up.formatTag b -> a = b.
Proof.
  intros H. apply (f_equal (fun s => split s ".")) in H.
  rewrite !Up_formatTag_split in H.
  injection H as Hy Hj Hn Hc. now apply Tag_eq.
Qed.

(** X6.  [formatTag] of part_001 never writes two different tags the
    same way, as long as their fields are safe numbers: tags that differ
    in the year, the update or the counter are written differently. *)
Theorem Up_formatTag_is_injective (a b : Tag) :
  safeTag a -> safeTag b -> a <> b -> Up.formatTag a <> Up.formatTag b.
Proof.
  intros _ _ Hab H. apply Hab. now apply Up_formatTag_inj.
Qed.

Lemma Up_formatTag_is_injective_witness :
  Up.formatTag {| year := Int 2024; up := {| maj := Int 1; min := Int 0 |};
                  count := Int 12 |}
  <> Up.formatTag {| year := Int 2024; up := {| maj := Int 1; min := Int 1 |};
                     count := Int 2 |}.
Proof.
  apply (Up_formatTag_is_injective
           {| year := Int 2024; up := {| maj := Int 1; min := Int 0 |};
              count := Int 12 |}
           {| year := Int 2024; up := {| maj := Int 1; min := Int 1 |};
              count := Int 2 |}).
  - unfold safeTag, safeUpdate, safeNum, maxSafe. cbn. lia.
  - unfold safeTag, safeUpdate, safeNum, maxSafe. cbn. lia.
  - discriminate.
Defined.

Lemma Sp_formatTag_inj (a b : Tag) :
  Sp.formatTag a = Sp.formatTag b -> a = b.
Proof.
  intros H. apply (f_equal (fun s => split s ".")) in H.
  rewrite !Sp_formatTag_split in H.
  destruct (strictEq (min (up a)) (Int 0)) eqn:Ea,
           (strictEq (min (up b)) (Int 0)) eqn:Eb; try discriminate H.
  - injection H as Hy Hj Hc. apply Tag_eq; try assumption.
    destruct (min (up a)) as [|x]; [discriminate|].
    destruct (min (up b)) as [|y]; [discriminate|].
    cbn in Ea, Eb. apply Z.eqb_eq in Ea, Eb. now subst.
  - injection H as Hy Hj Hn Hc. now apply Tag_eq.
Qed.

(** X7.  [formatTag] of [index.js], which leaves a zero minor out, never
    writes two different tags the same way either, as long as their
    fields are safe numbers: the forms with and without the minor never
    coincide. *)
Theorem Sp_formatTag_is_injective (a b : Tag) :
  safeTag a -> safeTag b -> a <> b -> Sp.formatTag a <> Sp.formatTag b.
Proof.
  intros _ _ Hab H. apply Hab. now apply Sp_formatTag_inj.
Qed.

Lemma Sp_formatTag_is_injective_witness :
  Sp.formatTag {| year := Int 2024; up := {| maj := Int 1; min := Int 0 |};
                  count := Int 12 |}
  <> Sp.formatTag {| year := Int 2024; up := {| maj := Int 1; min := Int 1 |};
                     count := Int 2 |}.
Proof.
  apply (Sp_formatTag_is_injective
           {| year := Int 2024; up := {| maj := Int 1; min := Int 0 |};
              count := Int 12 |}
           {| year := Int 2024; up := {| maj := Int 1; min := Int 1 |};
              count := Int 2 |}).
  - unfold safeTag, safeUpdate, safeNum, maxSafe. cbn. lia.
  - unfold safeTag, safeUpdate, safeNum, maxSafe. cbn. lia.
  - discriminate.
Defined.

(** ** The resolver of [index.js], from the tag names *)

(** X8.  In [index.js], [parseTag] reads back what [formatTag] writes:
    for every version of safe integers with a year in [2000, 3000] and a
    counter that is not negative, whatever its update. *)
Theorem Sp_parseTag_reads_back_formatTag (v : Version) :
  safeVersion v -> 2000 <= vyear v <= 3000 -> 0 <= vcounter v ->
  Sp.parseTag (Sp.formatTag (toTag v)) = Normal (Some (toTag v)).
Proof. intros _. apply Sp_parse_format. Qed.

Lemma Sp_parseTag_reads_back_formatTag_witness :
  Sp.parseTag
    (Sp.formatTag
       (toTag {| vyear := 2024; vmajor := 3; vminor := 1; vcounter := 7 |}))
  = Normal
      (Some (toTag {| vyear := 2024; vmajor := 3; vminor := 1;
                      vcounter := 7 |})).
Proof.
  apply (Sp_parseTag_reads_back_formatTag
           {| vyear := 2024; vmajor := 3; vminor := 1; vcounter := 7 |});
    unfold safeVersion, safeTag, safeUpdate, safeNum, maxSafe; cbn; lia.
Defined.

(** X9.  What every tag accepted by [parseTag] of [index.js] satisfies:
    the name starts with [v] and has 3 or 4 dot-separated segments, the
    year is in [2000, 3000] or is not a number, and the counter is not
    negative or is not a number. *)
Theorem Sp_accepted_tags_are_in_range (s : string) (t : Tag) :
  Sp.parseTag s = Normal (Some t) ->
  startsWith s "v" = true
  /\ (List.length (split s ".") = 3%nat \/ List.length (split s ".") = 4%nat)
  /\ (year t = NaN \/ exists y, year t = Int y /\ 2000 <= y <= 3000)
  /\ (count t = NaN \/ exists c, count t = Int c /\ 0 <= c).
Proof.
  intros H. split; [|split].
  - destruct (startsWith s "v") eqn:E; [reflexivity|].
    apply (parseTag_wrong_prefix "sp" "split") in E.
    unfold Sp.parseTag in H. congruence.
  - destruct (Nat.eq_dec (List.length (split s ".")) 3) as [E3|E3];
      [now left|].
    destruct (Nat.eq_dec (List.length (split s ".")) 4) as [E4|E4];
      [now right|].
    pose proof (parseTag_wrong_count "sp" "split" s E3 E4) as E.
    unfold Sp.parseTag in H. congruence.
  - now apply (Sp_parseTag_range s).
Qed.

Lemma Sp_accepted_tags_are_in_range_witness :
  startsWith "v2024.sp1.2.3" "v" = true
  /\ (List.length (split "v2024.sp1.2.3" ".") = 3%nat
      \/ List.length (split "v2024.sp1.2.3" ".") = 4%nat)
  /\ (Int 2024 = NaN \/ exists y, Int 2024 = Int y /\ 2000 <= y <= 3000)
  /\ (Int 3 = NaN \/ exists c, Int 3 = Int c /\ 0 <= c).
Proof.
  apply (Sp_accepted_tags_are_in_range "v2024.sp1.2.3"
           {| year := Int 2024; up := {| maj := Int 1; min := Int 2 |};
              count := Int 3 |}).
  reflexivity.
Defined.

Lemma Sp_resolve_unfold (tagData : list string)
  (parsed : list (option Version)) (year : num) (update : string)
  (key : Update) :
  map (Rev.parsed "sp" "split") tagData = map (option_map toTag) parsed ->
  Sp.parseServicePack update = Normal (Some key) ->
  Sp.resolve tagData year update
  = (latestTag <- Sp.getLatestTag
                    (Rev.relevantTags (map (option_map toTag) parsed) year key)
                    year update ;;
     Sp.getNewTag latestTag).
Proof.
  intros Hparsed Hkey. unfold Sp.resolve, Rev.resolve.
  pose proof (getRelevantTags_unfold "sp" "split" tagData year update) as E.
  cbv zeta in E. rewrite E. unfold Sp.parseServicePack in Hkey.
  now rewrite Hkey, Hparsed.
Qed.

Lemma Sp_parsed_name (tagData : list string)
  (parsed : list (option Version)) (v : Version) :
  map (Rev.parsed "sp" "split") tagData = map (option_map toTag) parsed ->
  In (Some v) parsed <->
  exists name, In name tagData /\ Sp.parseTag name = Normal (Some (toTag v)).
Proof.
  intros Hparsed. rewrite <- In_option_toTag, <- Hparsed, in_map_iff.
  split; intros (name & H1 & H2); exists name.
  - split; [exact H2|]. unfold Sp.parseTag.
    now rewrite parseTag_parsed, H1.
  - split; [|exact H1]. unfold Sp.parseTag in H2.
    rewrite parseTag_parsed in H2. congruence.
Qed.

(** X10.  In [index.js], when every accepted tag is a version of safe
    integers, the update text parses and the release line is not empty,
    [resolve] returns the tag of the version of the line with the
    greatest counter, counter plus 1, year and update unchanged. *)
Theorem Sp_resolve_follows_the_greatest_counter (tagData : list string)
  (parsed : list (option Version)) (year : num) (update : string)
  (key : Update) :
  map (Rev.parsed "sp" "split") tagData = map (option_map toTag) parsed ->
  (forall v, In (Some v) parsed -> safeVersion v) ->
  Sp.parseServicePack update = Normal (Some key) ->
  Rev.relevantTags (map (option_map toTag) parsed) year key <> [] ->
  exists latest : Version,
    In (Some latest) parsed
    /\ year = Int (vyear latest)
    /\ key = {| maj := Int (vmajor latest); min := Int (vminor latest) |}
    /\ (forall v, In (Some v) parsed ->
                  vyear v = vyear latest -> vmajor v = vmajor latest ->
                  vminor v = vminor latest -> vcounter v <= vcounter latest)
    /\ Sp.resolve tagData year update
       = Normal (Sp.formatTag (toTag (successor latest))).
Proof.
  intros Hparsed _ Hkey Hne.
  destruct (line_latest "sp" parsed year key update Hne)
    as (latest & H1 & H2 & H3 & H4 & H5).
  apply nth_error_In in H1. apply In_relevantTags in H1 as (Hin & Hy & Hk).
  exists latest. split; [exact Hin|]. split; [exact Hy|].
  split; [exact Hk|]. split.
  - intros v Hv Ey Ej En. apply H3. apply In_relevantTags.
    split; [exact Hv|]. rewrite Ey, Ej, En. now split.
  - rewrite (Sp_resolve_unfold _ _ _ _ _ Hparsed Hkey).
    unfold Sp.getLatestTag. rewrite H2. reflexivity.
Qed.

Lemma Sp_resolve_follows_the_greatest_counter_witness :
  exists latest : Version,
    vcounter latest = 1
    /\ Sp.resolve ["v2024.sp1.1"; "junk"; "v2024.sp1.0"; "v2024.sp2.5"]
         (Int 2024) "sp1"
       = Normal (Sp.formatTag (toTag (successor latest))).
Proof.
  pose (parsed :=
          [Some {| vyear := 2024; vmajor := 1; vminor := 0; vcounter := 1 |};
           None;
           Some {| vyear := 2024; vmajor := 1; vminor := 0; vcounter := 0 |};
           Some {| vyear := 2024; vmajor := 2; vminor := 0; vcounter := 5 |}]).
  destruct (Sp_resolve_follows_the_greatest_counter
              ["v2024.sp1.1"; "junk"; "v2024.sp1.0"; "v2024.sp2.5"]
              parsed (Int 2024) "sp1" {| maj := Int 1; min := Int 0 |})
    as (latest & Hin & Hy & Hk & Hmax & Hres).
  - reflexivity.
  - intros v [E|[E|[E|[E|[]]]]]; try discriminate; injection E as <-;
      unfold safeVersion, safeTag, safeUpdate, safeNum, maxSafe; cbn; lia.
  - reflexivity.
  - cbn. discriminate.
  - exists latest. split; [|exact Hres].
    assert (H1 : vcounter latest <= 1).
    { cbn in Hin. injection Hk as Hj Hn. injection Hy as Hy.
      destruct Hin as [E|[E|[E|[E|[]]]]]; try discriminate;
        injection E as <-; cbn in *; lia. }
    assert (H2 : 1 <= vcounter latest).
    { injection Hk as Hj Hn. injection Hy as Hy.
      apply (Hmax {| vyear := 2024; vmajor := 1; vminor := 0;
                     vcounter := 1 |}); cbn; auto; lia. }
    lia.
Defined.

Lemma successor_fields (v : Version) :
  vyear (successor v) = vyear v /\ vmajor (successor v) = vmajor v
  /\ vminor (successor v) = vminor v
  /\ vcounter (successor v) = vcounter v + 1.
Proof. now destruct v. Qed.

(** X11.  In [index.js], with a configured year in [2000, 3000] and an
    update text whose major and minor are safe integers, and when every
    accepted tag is a version of safe integers, the tag [resolve]
    returns is not the name of any existing tag. *)
Theorem Sp_resolve_returns_a_new_name (tagData : list string)
  (parsed : list (option Version)) (y : Z) (update : string) (j n : Z) :
  map (Rev.parsed "sp" "split") tagData = map (option_map toTag) parsed ->
  (forall v, In (Some v) parsed -> safeVersion v) ->
  Sp.parseServicePack update
  = Normal (Some {| maj := Int j; min := Int n |}) ->
  safeUpdate {| maj := Int j; min := Int n |} ->
  2000 <= y <= 3000 ->
  exists newTag,
    Sp.resolve tagData (Int y) update = Normal newTag
    /\ ~ In newTag tagData.
Proof.
  intros Hparsed _ Hkey _ Hy.
  set (key := {| maj := Int j; min := Int n |}) in *.
  set (line := Rev.relevantTags (map (option_map toTag) parsed) (Int y) key).
  assert (Hclash : forall v : Version,
             vyear v = y -> vmajor v = j -> vminor v = n ->
             0 <= vcounter v ->
             In (Sp.formatTag (toTag v)) tagData ->
             In (toTag v) line).
  { intros v Ey Ej En Hc Hin. apply In_relevantTags.
    split; [|subst; now split].
    apply (Sp_parsed_name tagData parsed v Hparsed).
    exists (Sp.formatTag (toTag v)). split; [exact Hin|].
    apply Sp_parse_format; [lia|exact Hc]. }
  destruct line as [|t0 line'] eqn:Eline.
  - exists (Sp.formatTag
              (toTag {| vyear := y; vmajor := j; vminor := n;
                        vcounter := 0 |})).
    split.
    + rewrite (Sp_resolve_unfold _ _ _ _ _ Hparsed Hkey).
      fold key. fold line. rewrite Eline.
      unfold Sp.getLatestTag, Rev.getLatestTag.
      cbn [List.length Nat.eqb]. unfold Sp.parseServicePack in Hkey.
      rewrite Hkey. reflexivity.
    + intros Hin. apply Hclash in Hin; cbn; try reflexivity; try lia.
      exact Hin.
  - assert (Hne : line <> []) by (rewrite Eline; discriminate).
    destruct (line_latest "sp" parsed (Int y) key update Hne)
      as (latest & H1 & H2 & H3 & H4 & H5).
    apply nth_error_In in H1.
    pose proof H1 as Hlatest.
    apply In_relevantTags in H1 as (Hin & Ey & Ek).
    injection Ey as Ey. injection Ek as Ej En.
    assert (Hc : 0 <= vcounter latest).
    { apply (Sp_parsed_name tagData parsed latest Hparsed) in Hin
        as (name & _ & Hname).
      apply Sp_parseTag_range in Hname as [_ [Hnan|(c & Ec & Hc)]];
        [discriminate|].
      injection Ec as <-. exact Hc. }
    exists (Sp.formatTag (toTag (successor latest))). split.
    + rewrite (Sp_resolve_unfold _ _ _ _ _ Hparsed Hkey).
      fold key. unfold Sp.getLatestTag. rewrite H2. reflexivity.
    + intros Hnew.
      destruct (successor_fields latest) as (Sy & Sj & Sn & Sc).
      apply Hclash in Hnew; try lia.
      fold line in H3. rewrite <- Eline in Hnew.
      apply H3 in Hnew. lia.
Qed.

Lemma Sp_resolve_returns_a_new_name_witness :
  exists newTag,
    Sp.resolve ["v2024.sp1.1"; "junk"; "v2024.sp1.0"] (Int 2024) "sp1"
    = Normal newTag
    /\ ~ In newTag ["v2024.sp1.1"; "junk"; "v2024.sp1.0"].
Proof.
  apply (Sp_resolve_returns_a_new_name
           ["v2024.sp1.1"; "junk"; "v2024.sp1.0"]
           [Some {| vyear := 2024; vmajor := 1; vminor := 0; vcounter := 1 |};
            None;
            Some {| vyear := 2024; vmajor := 1; vminor := 0; vcounter := 0 |}]
           2024 "sp1" 1 0).
  - reflexivity.
  - intros v [E|[E|[E|[]]]]; try discriminate; injection E as <-;
      unfold safeVersion, safeTag, safeUpdate, safeNum, maxSafe; cbn; lia.
  - reflexivity.
  - unfold safeUpdate, safeNum, maxSafe. cbn. lia.
  - lia.
Defined.

(** Outside those conditions the new tag can exist already: a year the
    parser rejects, or an update that is not a number. *)
Example Sp_resolve_can_repeat_a_name :
  Sp.resolve ["v1999.sp1.0"] (Int 1999) "sp1" = Normal "v1999.sp1.0"
  /\ Sp.resolve ["v2024.spx.0"] (Int 2024) "spx" = Normal "v2024.spNaN.0"
  /\ Sp.resolve ["v2024.spNaN.0"] (Int 2024) "spx" = Normal "v2024.spNaN.0".
Proof. repeat split. Qed.

(** X12.  In [index.js], when the update text starts with the marker
    but its major or minor is not a number, [resolve] ignores the tags:
    it returns the configured year and that update with counter 0. *)
Theorem Sp_resolve_restarts_on_NaN_update (tagData : list string)
  (year : num) (update : string) (key : Update) :
  Sp.parseServicePack update = Normal (Some key) ->
  maj key = NaN \/ min key = NaN ->
  Sp.resolve tagData year update
  = Normal (Sp.formatTag {| year := year; up := key; count := Int 0 |}).
Proof.
  intros Hkey Hnan. unfold Sp.resolve.
  assert (Hline : Rev.getRelevantTags "sp" "split" tagData year update
                  = Normal []).
  { pose proof (getRelevantTags_unfold "sp" "split" tagData year update) as E.
    cbv zeta in E. rewrite E. unfold Sp.parseServicePack in Hkey.
    rewrite Hkey. f_equal. apply relevantTags_NaN. now right. }
  rewrite resolve_empty_line by exact Hline.
  unfold Rev.sentinelKey. unfold Sp.parseServicePack in Hkey.
  now rewrite Hkey.
Qed.

Lemma Sp_resolve_restarts_on_NaN_update_witness :
  Sp.resolve ["v2024.sp1.4"; "v2024.spx.7"] (Int 2024) "spx"
  = Normal (Sp.formatTag {| year := Int 2024;
                            up := {| maj := NaN; min := Int 0 |};
                            count := Int 0 |}).
Proof.
  apply (Sp_resolve_restarts_on_NaN_update
           ["v2024.sp1.4"; "v2024.spx.7"] (Int 2024) "spx"
           {| maj := NaN; min := Int 0 |}); [reflexivity|].
  left. reflexivity.
Defined.

(** ** What [getAllTags] returns *)

(** X1.  Against a remote that serves a list of tags in pages of 100,
    [getAllTags] returns the whole list, in order, and it takes one
    request more than the number of full pages: when the number of tags
    is a multiple of 100, a last, empty page is asked for. *)
Theorem getAllTags_returns_every_tag (all : list string) (fuel : nat) :
  Act.getAllTags (pageOf all) fuel [] 1
  = if (fuel <=? List.length all / 100)%nat then None else Some all.
Proof.
  pose proof (getAllTags_paged all fuel [] 1 (Nat.le_refl 1)) as H.
  cbn [Nat.sub Nat.mul skipn List.app] in H.
  exact H.
Qed.

(** X2.  Against a remote that answers every page with 100 tags or
    more, [getAllTags] never returns, however many requests it makes. *)
Theorem getAllTags_keeps_asking (listTags : nat -> list string)
  (fuel : nat) :
  (forall page, (100 <= List.length (listTags page))%nat) ->
  Act.getAllTags listTags fuel [] 1 = None.
Proof. intros H. apply getAllTags_full_pages. intros p _. apply H. Qed.

Lemma getAllTags_keeps_asking_witness :
  Act.getAllTags (fun _ => repeat "v2024.up1.0" 100) 7 [] 1 = None.
Proof.
  apply (getAllTags_keeps_asking (fun _ => repeat "v2024.up1.0" 100) 7).
  intros page. rewrite repeat_length. lia.
Defined.

(** ** The update segment of part_001 *)

Lemma Up_parseUpdate_one (a : string) :
  hasChar "." a = false ->
  Up.parseUpdate ("up" ++ a)
  = Normal (Some {| maj := parseInt a; min := Int 0 |}).
Proof.
  intros Ha. unfold Up.parseUpdate, Rev.parseUpdate.
  change (startsWith ("up" ++ a) "up") with true. cbn [negb].
  rewrite split_no_sep by exact Ha.
  cbn [nth_error member bind List.length Nat.eqb].
  change ("up" ++ a)%string with (String "u" (String "p" a)).
  now rewrite substr_drop2.
Qed.

(** X13.  In part_001, [parseUpdate] reads back the update that
    [formatTag] writes, [up<maj>.<min>], for every update of safe
    numbers; and it reads [up<maj>] as that major with minor 0. *)
Theorem Up_parseUpdate_reads_back_the_update (u : Update) :
  safeUpdate u ->
  Up.parseUpdate ("up" ++ toString (maj u) ++ "." ++ toString (min u))
  = Normal (Some u)
  /\ Up.parseUpdate ("up" ++ toString (maj u))
     = Normal (Some {| maj := maj u; min := Int 0 |}).
Proof.
  intros _.
  pose proof (toString_num_no_dot (maj u)) as Hj.
  pose proof (toString_num_no_dot (min u)) as Hn.
  split.
  - rewrite (Up_parseUpdate_two (toString (maj u)) (toString (min u)) []).
    + rewrite !parseInt_toString_num. now destruct u.
    + change ("." ++ toString (min u))%string
        with (String "." (toString (min u))).
      rewrite (Up_split_marked _ _ Hj). f_equal. now apply split_no_sep.
    + reflexivity.
  - rewrite Up_parseUpdate_one by exact Hj.
    now rewrite parseInt_toString_num.
Qed.

Lemma Up_parseUpdate_reads_back_the_update_witness :
  Up.parseUpdate "up3.-2"
  = Normal (Some {| maj := Int 3; min := Int (-2) |})
  /\ Up.parseUpdate "up3" = Normal (Some {| maj := Int 3; min := Int 0 |}).
Proof.
  apply (Up_parseUpdate_reads_back_the_update
           {| maj := Int 3; min := Int (-2) |}).
  unfold safeUpdate, safeNum, maxSafe. cbn. lia.
Defined.

(** ** The first revision cannot read its own tags *)

Lemma toString_head (n : num) :
  exists c s, toString n = String c s /\ Ascii.eqb c "s" = false.
Proof.
  destruct n as [|[|p|p]]; cbn [toString Z.to_int NilZero.string_of_int];
    try (eexists; eexists; split; reflexivity);
    unfold NilZero.string_of_uint;
    destruct (Pos.to_uint p); cbn [NilEmpty.string_of_uint];
    eexists; eexists; split; reflexivity.
Qed.

Lemma toString_not_marker (n : num) (rest : string) :
  startsWith (toString n ++ rest) "sp" = false.
Proof.
  destruct (toString_head n) as (c & s & -> & E).
  cbn [String.append startsWith]. now rewrite E.
Qed.

Lemma parseServicePack_of_number (n : num) (rest : string) :
  Sp.parseServicePack (toString n ++ rest) = Normal None.
Proof.
  apply parseUpdate_wrong_prefix, toString_not_marker.
Qed.

(** X14.  In the first revision of [index.js], [getNewTag] writes the
    update without its marker: for a tag of safe numbers the new tag is
    [v<year>.<maj>.<count + 1>] when the minor is 0 and
    [v<year>.<maj>.<min>.<count + 1>] otherwise.  [parseTag] rejects
    every tag so written: the action cannot read back the tags it
    creates. *)
Theorem Sp0_cannot_read_its_own_tags (t : Tag) :
  safeTag t ->
  let sp := if strictEq (min (up t)) (Int 0)
            then toString (maj (up t))
            else (toString (maj (up t)) ++ "."
                    ++ toString (min (up t)))%string in
  let newTag := ("v" ++ toString (year t) ++ "." ++ sp ++ "."
                   ++ toString (add (count t) (Int 1)))%string in
  Sp0.getNewTag (Some t) = Normal newTag
  /\ startsWith sp "sp" = false
  /\ Sp.parseTag newTag = Normal None.
Proof.
  intros _. cbv zeta. split; [reflexivity|]. split.
  { destruct (strictEq (min (up t)) (Int 0)).
    - replace (toString (maj (up t)))
        with (toString (maj (up t)) ++ "")%string
        by (clear; induction (toString (maj (up t))); cbn; congruence).
      apply toString_not_marker.
    - apply toString_not_marker. }
  unfold Sp.parseTag, Rev.parseTag.
  set (Y := toString (year t)). set (J := toString (maj (up t))).
  set (N := toString (min (up t))).
  set (C := toString (add (count t) (Int 1))).
  assert (HY : hasChar "." ("v" ++ Y) = false)
    by (cbn; apply toString_num_no_dot).
  assert (HJ : hasChar "." J = false) by apply toString_num_no_dot.
  assert (HN : hasChar "." N = false) by apply toString_num_no_dot.
  assert (HC : hasChar "." C = false) by apply toString_num_no_dot.
  unfold invoke. cbn [StringPrototype String.eqb Ascii.eqb Bool.eqb].
  cbv beta iota.
  destruct (strictEq (min (up t)) (Int 0)).
  - change ("v" ++ Y ++ "." ++ J ++ "." ++ C)%string
      with (("v" ++ Y) ++ String "." (J ++ String "." C))%string.
    rewrite split_app_sep by exact HY.
    rewrite split_app_sep by exact HJ.
    rewrite split_no_sep by exact HC.
    cbn [String.append String.length Nat.eqb startsWith Ascii.eqb Bool.eqb
         negb andb bind List.length nth_error member Nat.sub strOf].
    destruct (lt _ (Int 2000) || gt _ (Int 3000)); [reflexivity|].
    fold Sp.parseServicePack.
    replace J with (J ++ "")%string
      by (clear; induction J; cbn; congruence).
    unfold J. rewrite parseServicePack_of_number. reflexivity.
  - replace ("v" ++ Y ++ "." ++ (J ++ "." ++ N) ++ "." ++ C)%string
      with (("v" ++ Y)
              ++ String "." (J ++ String "." (N ++ String "." C)))%string.
    2:{ cbn [String.append]. do 2 f_equal. now rewrite append_assoc. }
    rewrite split_app_sep by exact HY.
    rewrite split_app_sep by exact HJ.
    rewrite split_app_sep by exact HN.
    rewrite split_no_sep by exact HC.
    cbn [String.append String.length Nat.eqb startsWith Ascii.eqb Bool.eqb
         negb andb bind List.length nth_error member Nat.sub strOf].
    destruct (lt _ (Int 2000) || gt _ (Int 3000)); [reflexivity|].
    fold Sp.parseServicePack.
    unfold J. rewrite parseServicePack_of_number. reflexivity.
Qed.

Lemma Sp0_cannot_read_its_own_tags_witness :
  Sp0.getNewTag
    (Some {| year := Int 2024; up := {| maj := Int 1; min := Int 2 |};
             count := Int 0 |})
  = Normal "v2024.1.2.1"
  /\ startsWith "1.2" "sp" = false
  /\ Sp.parseTag "v2024.1.2.1" = Normal None.
Proof.
  apply (Sp0_cannot_read_its_own_tags
           {| year := Int 2024; up := {| maj := Int 1; min := Int 2 |};
              count := Int 0 |}).
  unfold safeTag, safeUpdate, safeNum, maxSafe. cbn. lia.
Defined.

(** X15.  In the first revision of [index.js], the release line is
    filtered from the parsed tags as they come: one rejected tag makes
    the filter throw, and without any the line is the matching tags in
    the order of the list, not sorted. *)
Theorem Sp0_line_throws_or_keeps_the_order (tags : list Tag)
  (before after : list (option Tag)) (year : num) (sp : Update) :
  Sp0.relevantTags (before ++ None :: after) year sp = Throw TypeError
  /\ Sp0.relevantTags (map Some tags) year sp
     = Normal (map Some (filter (Rev.inLine year sp) tags)).
Proof.
  split.
  - apply Sp0_rejected_tag_throws. apply in_or_app. right. now left.
  - unfold Sp0.relevantTags.
    induction tags as [|t tags IH]; [reflexivity|].
    cbn [map Sp0.filterM filter]. rewrite IH.
    unfold Sp0.inLine, Rev.inLine. cbn [member bind].
    rewrite parseInt_toString_num.
    destruct (strictEq (Model.year t) year && strictEq (maj (up t)) (maj sp)
              && strictEq (min (up t)) (min sp)); reflexivity.
Qed.

(** ** The action as a whole *)

Section Action.

Variables marker cut : string.
Variable formatTag : Tag -> string.
Variable createRef : string -> string -> completion unit.

Let resolve := Rev.resolve marker cut formatTag.

(** The steps of a run that got as far as pushing [newTag]. *)
Let pushed (newTag sha : string) : list Act.Step :=
  match createRef ("refs/tags/" ++ newTag)%string sha with
  | Normal _ =>
      [Act.CreateRef ("refs/tags/" ++ newTag)%string sha;
       Act.SetOutput (Some newTag)]
  | Throw e =>
      [Act.CreateRef ("refs/tags/" ++ newTag)%string sha;
       Act.SetFailed (Act.MessageOf e)]
  end.

Lemma falsy_Some (s : string) : s <> "" -> Act.falsy (Some s) = false.
Proof. destruct s; [congruence|reflexivity]. Qed.

Lemma run_from_line (listTags : nat -> list string) (fuel : nat)
  (ref sha : string) (year : num) (update : string) (tagData : list string)
  (newTag : string) :
  ref <> "" -> sha <> "" ->
  Act.getRelevantTags marker cut listTags fuel year (Some update)
  = Some (Rev.getRelevantTags marker cut tagData year update) ->
  resolve tagData year update = Normal newTag ->
  Act.run marker cut formatTag listTags createRef fuel
    {| Act.GITHUB_REF := Some ref; Act.GITHUB_SHA := Some sha |}
    (Some {| Act.year := year; Act.update := Some update |})
  = Some (pushed newTag sha).
Proof.
  intros Hr Hs Hline Hres. unfold Act.run, Act.action.
  cbn [Act.GITHUB_REF Act.GITHUB_SHA Act.year Act.update].
  rewrite (falsy_Some _ Hr), (falsy_Some _ Hs), Hline.
  unfold resolve, Rev.resolve in Hres.
  destruct (Rev.getRelevantTags marker cut tagData year update)
    as [tags|e]; [|discriminate].
  cbn [bind] in Hres. cbn [Act.getLatestTag]. rewrite Hres.
  cbn [strOf]. unfold pushed.
  destruct (createRef ("refs/tags/" ++ newTag)%string sha); reflexivity.
Qed.

Lemma Act_getRelevantTags_paged (all : list string) (fuel : nat)
  (year : num) (update : string) :
  (List.length all / 100 < fuel)%nat ->
  Act.getRelevantTags marker cut (pageOf all) fuel year (Some update)
  = Some (Rev.getRelevantTags marker cut all year update).
Proof.
  intros Hfuel. unfold Act.getRelevantTags, Rev.getRelevantTags.
  cbn [member bind].
  destruct (Rev.parseUpdate marker update) as [[key|]|e]; try reflexivity.
  rewrite getAllTags_paged by lia.
  replace (skipn (100 * (1 - 1)) all) with all by reflexivity.
  destruct (Nat.leb_spec fuel (List.length all / 100)); [lia|reflexivity].
Qed.

Lemma Act_getRelevantTags_invalid (listTags : nat -> list string)
  (fuel : nat) (year : num) (update : string) (tagData : list string) :
  Rev.parseUpdate marker update = Normal None ->
  Act.getRelevantTags marker cut listTags fuel year (Some update)
  = Some (Rev.getRelevantTags marker cut tagData year update).
Proof.
  intros H. unfold Act.getRelevantTags, Rev.getRelevantTags.
  cbn [member bind]. now rewrite H.
Qed.

End Action.

Lemma not_falsy (x : option string) :
  Act.falsy x = false -> exists s, x = Some s /\ s <> "".
Proof.
  destruct x as [[|c s]|]; try discriminate.
  intros _. eexists. split; [reflexivity|discriminate].
Qed.

Lemma run_pushes_the_resolved_tag_aux (marker cut : string)
  (formatTag : Tag -> string)
  (createRef : string -> string -> completion unit)
  (all : list string) (fuel : nat) (ref sha : string) (year : num)
  (update : string) :
  ref <> "" -> sha <> "" ->
  (List.length all / 100 < fuel)%nat ->
  exists newTag : string,
    Act.run marker cut formatTag (pageOf all) createRef fuel
      {| Act.GITHUB_REF := Some ref; Act.GITHUB_SHA := Some sha |}
      (Some {| Act.year := year; Act.update := Some update |})
    = Some
        match createRef ("refs/tags/" ++ newTag)%string sha with
        | Normal _ =>
            [Act.CreateRef ("refs/tags/" ++ newTag)%string sha;
             Act.SetOutput (Some newTag)]
        | Throw e =>
            [Act.CreateRef ("refs/tags/" ++ newTag)%string sha;
             Act.SetFailed (Act.MessageOf e)]
        end.
Proof.
  intros Hr Hs Hfuel.
  destruct (resolve_total marker cut formatTag all year update)
    as [newTag Hres].
  exists newTag.
  apply (run_from_line marker cut formatTag createRef (pageOf all) fuel
           ref sha year update all newTag Hr Hs);
    [now apply Act_getRelevantTags_paged | exact Hres].
Qed.

(** X16.  With both environment variables set, a configuration that
    has a year and an update text, and a remote that serves the tags in
    pages of 100, a run asks for exactly one ref, [refs/tags/<tag>] at
    the commit of [GITHUB_SHA], where [<tag>] is what [resolve] returns
    on the whole list of tags; it then outputs that tag, or reports the
    failure when the remote refuses the ref. *)
Theorem run_pushes_the_resolved_tag (marker cut : string)
  (formatTag : Tag -> string)
  (createRef : string -> string -> completion unit)
  (all : list string) (fuel : nat) (ref sha : string) (year : num)
  (update : string) :
  ref <> "" -> sha <> "" ->
  (List.length all / 100 < fuel)%nat ->
  exists newTag : string,
    Rev.resolve marker cut formatTag all year update = Normal newTag
    /\ Act.run marker cut formatTag (pageOf all) createRef fuel
         {| Act.GITHUB_REF := Some ref; Act.GITHUB_SHA := Some sha |}
         (Some {| Act.year := year; Act.update := Some update |})
       = Some
           match createRef ("refs/tags/" ++ newTag)%string sha with
           | Normal _ =>
               [Act.CreateRef ("refs/tags/" ++ newTag)%string sha;
                Act.SetOutput (Some newTag)]
           | Throw e =>
               [Act.CreateRef ("refs/tags/" ++ newTag)%string sha;
                Act.SetFailed (Act.MessageOf e)]
           end.
Proof.
  intros Hr Hs Hfuel.
  destruct (resolve_total marker cut formatTag all year update)
    as [newTag Hres].
  exists newTag. split; [exact Hres|].
  apply (run_from_line marker cut formatTag createRef (pageOf all) fuel
           ref sha year update all newTag Hr Hs);
    [now apply Act_getRelevantTags_paged | exact Hres].
Qed.

Lemma run_pushes_the_resolved_tag_witness :
  exists newTag : string,
    Sp.resolve ["v2024.sp1.0"; "v2024.sp1.1"] (Int 2024) "sp1"
    = Normal newTag
    /\ Act.run "sp" "split" Sp.formatTag
         (pageOf ["v2024.sp1.0"; "v2024.sp1.1"]) (fun _ _ => Normal tt) 1
         {| Act.GITHUB_REF := Some "refs/heads/main";
            Act.GITHUB_SHA := Some "0a1b2c" |}
         (Some {| Act.year := Int 2024; Act.update := Some "sp1" |})
       = Some [Act.CreateRef ("refs/tags/" ++ newTag)%string "0a1b2c";
               Act.SetOutput (Some newTag)].
Proof.
  apply (run_pushes_the_resolved_tag "sp" "split" Sp.formatTag
           (fun _ _ => Normal tt) ["v2024.sp1.0"; "v2024.sp1.1"] 1
           "refs/heads/main" "0a1b2c" (Int 2024) "sp1");
    [discriminate | discriminate | cbn; lia].
Defined.

(** X17.  When the update text of the configuration lacks the marker,
    a run asks the remote for no tag at all and still pushes a ref: the
    tag of the configured year, update 0.0 and counter 0. *)
Theorem run_without_marker_pushes_update_zero (marker cut : string)
  (formatTag : Tag -> string)
  (createRef : string -> string -> completion unit)
  (listTags : nat -> list string) (ref sha : string) (year : num)
  (update : string) :
  ref <> "" -> sha <> "" ->
  startsWith update marker = false ->
  let newTag := formatTag {| year := year;
                             up := {| maj := Int 0; min := Int 0 |};
                             count := Int 0 |} in
  Act.run marker cut formatTag listTags createRef 0
    {| Act.GITHUB_REF := Some ref; Act.GITHUB_SHA := Some sha |}
    (Some {| Act.year := year; Act.update := Some update |})
  = Some
      match createRef ("refs/tags/" ++ newTag)%string sha with
      | Normal _ =>
          [Act.CreateRef ("refs/tags/" ++ newTag)%string sha;
           Act.SetOutput (Some newTag)]
      | Throw e =>
          [Act.CreateRef ("refs/tags/" ++ newTag)%string sha;
           Act.SetFailed (Act.MessageOf e)]
      end.
Proof.
  intros Hr Hs Hm newTag.
  pose proof (parseUpdate_wrong_prefix marker update Hm) as Hnull.
  apply (run_from_line marker cut formatTag createRef listTags 0
           ref sha year update [] newTag Hr Hs).
  - now apply Act_getRelevantTags_invalid.
  - rewrite resolve_empty_line
      by now apply getRelevantTags_invalid_update.
    unfold Rev.sentinelKey. now rewrite Hnull.
Qed.

Lemma run_without_marker_pushes_update_zero_witness :
  Act.run "up" "uplit" Up.formatTag (fun _ => ["v2024.up1.0"])
    (fun _ _ => Normal tt) 0
    {| Act.GITHUB_REF := Some "refs/heads/main";
       Act.GITHUB_SHA := Some "0a1b2c" |}
    (Some {| Act.year := Int 2024; Act.update := Some "sp1" |})
  = Some [Act.CreateRef "refs/tags/v2024.up0.0.0" "0a1b2c";
          Act.SetOutput (Some "v2024.up0.0.0")].
Proof.
  apply (run_without_marker_pushes_update_zero "up" "uplit" Up.formatTag
           (fun _ _ => Normal tt) (fun _ => ["v2024.up1.0"])
           "refs/heads/main" "0a1b2c" (Int 2024) "sp1");
    [discriminate | discriminate | reflexivity].
Defined.

(** X18.  Against a remote that serves the tags in pages of 100, a run
    always ends, and it asks for a ref if, and only if, [GITHUB_REF]
    and [GITHUB_SHA] are set and not empty, the configuration was read,
    and it has an update text.  In particular an empty variable, an
    unreadable configuration or a missing update key push nothing. *)
Theorem run_pushes_only_with_its_inputs (marker cut : string)
  (formatTag : Tag -> string)
  (createRef : string -> string -> completion unit)
  (all : list string) (fuel : nat) (env : Act.Env)
  (config : option Act.Config) :
  (List.length all / 100 < fuel)%nat ->
  exists steps,
    Act.run marker cut formatTag (pageOf all) createRef fuel env config
    = Some steps
    /\ ((exists ref sha, In (Act.CreateRef ref sha) steps)
        <-> Act.falsy (Act.GITHUB_REF env) = false
            /\ Act.falsy (Act.GITHUB_SHA env) = false
            /\ exists year update,
                 config = Some {| Act.year := year;
                                  Act.update := Some update |}).
Proof.
  intros Hfuel.
  destruct (Act.falsy (Act.GITHUB_REF env)) eqn:Eref.
  { eexists. split.
    - unfold Act.run, Act.action. rewrite Eref. reflexivity.
    - split; [intros (r & s & [H|[]]); discriminate|].
      intros (H & _). discriminate. }
  destruct (Act.falsy (Act.GITHUB_SHA env)) eqn:Esha.
  { eexists. split.
    - unfold Act.run, Act.action. rewrite Eref, Esha. reflexivity.
    - split; [intros (r & s & [H|[]]); discriminate|].
      intros (_ & H & _). discriminate. }
  destruct config as [[year [update|]]|].
  - destruct env as [r s]. cbn in Eref, Esha.
    apply not_falsy in Eref as (ref & -> & Hr).
    apply not_falsy in Esha as (sha & -> & Hs).
    destruct (run_pushes_the_resolved_tag_aux marker cut formatTag createRef
                all fuel ref sha year update Hr Hs Hfuel)
      as (newTag & Hrun).
    eexists. split; [exact Hrun|]. split.
    + intros _. repeat split; try reflexivity. now exists year, update.
    + intros _. exists ("refs/tags/" ++ newTag)%string, sha.
      destruct (createRef ("refs/tags/" ++ newTag)%string sha); now left.
  - eexists. split.
    + unfold Act.run, Act.action. rewrite Eref, Esha. reflexivity.
    + split; [intros (r & s & [H|[]]); discriminate|].
      intros (_ & _ & y & u & H). discriminate.
  - eexists. split.
    + unfold Act.run, Act.action. rewrite Eref, Esha. reflexivity.
    + split; [intros (r & s & [H|[]]); discriminate|].
      intros (_ & _ & y & u & H). discriminate.
Qed.

Lemma run_pushes_only_with_its_inputs_witness :
  exists steps,
    Act.run "up" "uplit" Up.formatTag (pageOf ["v2024.up1.0"])
      (fun _ _ => Normal tt) 1
      {| Act.GITHUB_REF := Some "refs/heads/main";
         Act.GITHUB_SHA := Some "" |}
      (Some {| Act.year := Int 2024; Act.update := Some "up1" |})
    = Some steps
    /\ ((exists ref sha, In (Act.CreateRef ref sha) steps)
        <-> Act.falsy (Some "refs/heads/main") = false
            /\ Act.falsy (Some "") = false
            /\ exists year update,
                 Some {| Act.year := Int 2024; Act.update := Some "up1" |}
                 = Some {| Act.year := year; Act.update := Some update |}).
Proof.
  apply (run_pushes_only_with_its_inputs "up" "uplit" Up.formatTag
           (fun _ _ => Normal tt) ["v2024.up1.0"] 1
           {| Act.GITHUB_REF := Some "refs/heads/main";
              Act.GITHUB_SHA := Some "" |}
           (Some {| Act.year := Int 2024; Act.update := Some "up1" |})).
  cbn. lia.
Defined.

(** ** The order of the tags does not matter *)

Lemma notAfter_antisym (a b : Version) : notAfter a b -> notAfter b a -> a = b.
Proof.
  unfold notAfter. rewrite (lexCompare_antisym a b). intros H1 H2.
  apply lexCompare_Eq. destruct (lexCompare a b); cbn in *; congruence.
Qed.

Lemma sorted_Permutation_eq (l l' : list Version) :
  StronglySorted notAfter l -> StronglySorted notAfter l' ->
  Permutation l l' -> l = l'.
Proof.
  intros Hl. revert l'.
  induction Hl as [|x l Hs IH Hx]; intros l' Hl' Hp.
  - now apply Permutation_nil in Hp.
  - destruct Hl' as [|y l' Hs' Hy].
    + apply Permutation_sym, Permutation_nil in Hp. discriminate.
    + rewrite Forall_forall in Hx, Hy.
      assert (Exy : x = y).
      { assert (Hyin : In y (x :: l))
          by (apply (Permutation_in _ (Permutation_sym Hp)); now left).
        assert (Hxin : In x (y :: l'))
          by (apply (Permutation_in _ Hp); now left).
        destruct Hyin as [E|Hyin]; [exact E|].
        destruct Hxin as [E|Hxin]; [now symmetry|].
        apply notAfter_antisym; [now apply Hx | now apply Hy]. }
      subst y. f_equal. apply IH; [exact Hs'|].
      now apply Permutation_cons_inv in Hp.
Qed.

Lemma map_toTag_inj (l l' : list Version) :
  map toTag l = map toTag l' -> l = l'.
Proof.
  revert l'. induction l as [|x l IH]; intros [|y l'] H;
    try discriminate; [reflexivity|].
  cbn [map] in H.
  assert (E1 : toTag x = toTag y) by congruence.
  assert (E2 : map toTag l = map toTag l') by congruence.
  apply toTag_inj in E1. apply IH in E2. now subst.
Qed.

Lemma dropNull_Permutation (tags tags' : list (option Tag)) :
  Permutation tags tags' ->
  Permutation (Rev.dropNull tags) (Rev.dropNull tags').
Proof.
  induction 1 as [|[t|] l l' _ IH|[t|] [u|] l|l1 l2 l3 _ IH1 _ IH2];
    cbn [Rev.dropNull]; try reflexivity; try assumption.
  - now constructor.
  - apply perm_swap.
  - now transitivity (Rev.dropNull l2).
Qed.

Lemma validTags_Permutation (parsed parsed' : list (option Version)) :
  Permutation parsed parsed' ->
  Rev.validTags (map (option_map toTag) parsed)
  = Rev.validTags (map (option_map toTag) parsed').
Proof.
  intros Hp.
  destruct (dropNull_versions parsed) as (vs & Hvs).
  destruct (dropNull_versions parsed') as (vs' & Hvs').
  unfold Rev.validTags. rewrite Hvs, Hvs', !sort_map. f_equal.
  assert (Hperm : Permutation (map toTag vs) (map toTag vs')).
  { rewrite <- Hvs, <- Hvs'.
    now apply dropNull_Permutation, Permutation_map. }
  apply Permutation_map_inv in Hperm as (l3 & E & Hperm).
  apply map_toTag_inj in E. subst l3.
  apply sorted_Permutation_eq; try apply sort_StronglySorted.
  transitivity vs; [apply sort_Permutation|].
  transitivity vs'; [now symmetry | symmetry; apply sort_Permutation].
Qed.

Lemma versions_of_accepted (marker cut : string) (tagData : list string) :
  (forall name t,
     In name tagData -> Rev.parsed marker cut name = Some t -> integral t) ->
  exists parsed,
    map (Rev.parsed marker cut) tagData = map (option_map toTag) parsed.
Proof.
  induction tagData as [|n l IH]; intros H; [now exists []|].
  destruct IH as (parsed & E).
  { intros name t Hin. apply H. now right. }
  destruct (Rev.parsed marker cut n) as [t|] eqn:En.
  - destruct (H n t (or_introl eq_refl) En) as (v & ->).
    exists (Some v :: parsed). cbn [map]. now rewrite En, E.
  - exists (None :: parsed). cbn [map]. now rewrite En, E.
Qed.

(** X19.  In [index.js], when every accepted tag is a version, the tag
    [resolve] returns does not depend on the order in which the remote
    lists the tags. *)
Theorem Sp_resolve_ignores_the_listing_order (tagData tagData' : list string)
  (year : num) (update : string) :
  (forall name t,
     In name tagData -> Rev.parsed "sp" "split" name = Some t -> integral t) ->
  Permutation tagData tagData' ->
  Sp.resolve tagData year update = Sp.resolve tagData' year update.
Proof.
  intros Hint Hp.
  assert (Hint' : forall name t,
             In name tagData' -> Rev.parsed "sp" "split" name = Some t ->
             integral t).
  { intros name t Hin. apply Hint.
    now apply (Permutation_in _ (Permutation_sym Hp)). }
  destruct (versions_of_accepted _ _ _ Hint) as (parsed & E).
  destruct (versions_of_accepted _ _ _ Hint') as (parsed' & E').
  assert (Hpp : Permutation (map (option_map toTag) parsed)
                            (map (option_map toTag) parsed')).
  { rewrite <- E, <- E'. now apply Permutation_map. }
  apply Permutation_map_inv in Hpp as (l3 & E3 & Hpp).
  assert (Hvalid : Rev.validTags (map (option_map toTag) parsed)
                   = Rev.validTags (map (option_map toTag) parsed')).
  { rewrite E3. apply validTags_Permutation. now symmetry. }
  unfold Sp.resolve, Rev.resolve.
  pose proof (getRelevantTags_unfold "sp" "split" tagData year update) as U.
  pose proof (getRelevantTags_unfold "sp" "split" tagData' year update) as U'.
  cbv zeta in U, U'. rewrite U, U', E, E'.
  unfold Rev.relevantTags. now rewrite Hvalid.
Qed.

Lemma Sp_resolve_ignores_the_listing_order_witness :
  Sp.resolve ["v2024.sp1.0"; "v2024.sp1.1"] (Int 2024) "sp1"
  = Sp.resolve ["v2024.sp1.1"; "v2024.sp1.0"] (Int 2024) "sp1".
Proof.
  apply (Sp_resolve_ignores_the_listing_order
           ["v2024.sp1.0"; "v2024.sp1.1"] ["v2024.sp1.1"; "v2024.sp1.0"]
           (Int 2024) "sp1").
  - intros name t [<-|[<-|[]]] H; vm_compute in H; injection H as <-.
    + now exists {| vyear := 2024; vmajor := 1; vminor := 0;
                    vcounter := 0 |}.
    + now exists {| vyear := 2024; vmajor := 1; vminor := 0;
                    vcounter := 1 |}.
  - apply perm_swap.
Defined.
